(** * Personal Expense Tracker: a shallow embedding of [ExpenseTracker.py]

    The development follows the layering of the program:

    - [Real]: the arithmetic of Python [float] / SQLite [REAL], with the
      IEEE 754 binary64 instance ([binary64]) and an exact instance
      ([exact_units]);
    - the proleptic Gregorian calendar of Python's [datetime.date]
      ([_ymd2ord], [_ord2ymd], [weekday], [strftime] with ['%Y-%m-%d']);
    - the three SQLite tables and the statements the program sends to them
      ([sqlite_execute]);
    - the Python side: a state-and-exception monad [py], the
      [DatabaseManager] wrappers [execute_query] / [execute_update] and the
      three managers ([ExpenseManager], [CategoryManager], [BudgetManager]).
*)

From Stdlib Require Import ZArith List Bool String Ascii Lia Permutation.
From Stdlib Require Import Floats.
From Stdlib Require Import Sorted.
Import ListNotations.

Local Open Scope string_scope.
Local Open Scope Z_scope.

(* ================================================================== *)
(** * Numbers: Python [float], SQLite [REAL]                           *)
(* ================================================================== *)

(** The program only adds, subtracts, multiplies, divides and compares its
    amounts; it never looks at their representation.  The operations are
    kept behind an interface so that the same definitions run on IEEE
    doubles (what CPython and SQLite use) and on an exact arithmetic. *)
Class Real : Type := {
  real : Type;
  rofZ : Z -> real;                   (* float(n) of a Python int *)
  radd : real -> real -> real;
  rsub : real -> real -> real;
  rmul : real -> real -> real;
  rdiv : real -> real -> real;
  reqb : real -> real -> bool;        (* == *)
  rltb : real -> real -> bool;        (* <  *)
  rleb : real -> real -> bool         (* <= *)
}.

(** The literals [0.0] (also what the int [0] converts to) and [100]. *)
Definition r0 {R : Real} : real := rofZ 0.
Definition r100 {R : Real} : real := rofZ 100.

(** A NaN is the only number that differs from itself. *)
Definition is_nan {R : Real} (x : real) : bool := negb (reqb x x).

(** Python's [bool(x)] of a float: false exactly when [x == 0]. *)
Definition nonzero {R : Real} (x : real) : bool := negb (reqb x r0).

(** What the program relies on from the order: a positive number is a
    number, is not zero, and a number that is [<= 0] is not positive. *)
Class RealOrder (R : Real) : Prop := {
  pos_not_nan : forall a : real, rltb r0 a = true -> reqb a a = true;
  pos_nonzero : forall a : real, rltb r0 a = true -> reqb a r0 = false;
  nonpos_not_pos : forall a : real, rleb a r0 = true -> rltb r0 a = false
}.

(** Arithmetic without rounding: addition is a commutative monoid, and
    zero is the only number that compares equal to zero. *)
Class RealExact (R : Real) : Prop := {
  radd_0_l : forall a : real, radd r0 a = a;
  radd_comm : forall a b : real, radd a b = radd b a;
  radd_assoc : forall a b c : real, radd a (radd b c) = radd (radd a b) c;
  req_zero : forall a : real, reqb a r0 = true -> a = r0
}.

(** [float(n)] on doubles, for the ints that fit a machine word. *)
Definition float_of_Z (z : Z) : float :=
  if z <? 0 then PrimFloat.opp (PrimFloat.of_uint63 (Uint63.of_Z (- z)))
  else PrimFloat.of_uint63 (Uint63.of_Z z).

(** IEEE 754 binary64, as computed by the machine. *)
Definition binary64 : Real := {|
  real := float;
  rofZ := float_of_Z;
  radd := PrimFloat.add;
  rsub := PrimFloat.sub;
  rmul := PrimFloat.mul;
  rdiv := PrimFloat.div;
  reqb := PrimFloat.eqb;
  rltb := PrimFloat.ltb;
  rleb := PrimFloat.leb
|}.

(** Exact amounts counted in indivisible units (integers). *)
Definition exact_units : Real := {|
  real := Z;
  rofZ := fun z => z;
  radd := Z.add;
  rsub := Z.sub;
  rmul := Z.mul;
  rdiv := Z.div;
  reqb := Z.eqb;
  rltb := Z.ltb;
  rleb := Z.leb
|}.

(* ================================================================== *)
(** * Calendar: Python's [datetime.date]                               *)
(* ================================================================== *)

Module Calendar.

Record date : Type := mkdate { year : Z; month : Z; day : Z }.

Definition MINYEAR : Z := 1.
Definition MAXYEAR : Z := 9999.

(** [_is_leap(year)] *)
Definition _is_leap (y : Z) : bool :=
  (y mod 4 =? 0) && (negb (y mod 100 =? 0) || (y mod 400 =? 0)).

(** [_days_before_year(year)]: days before January 1st of [year]. *)
Definition _days_before_year (y : Z) : Z :=
  let y := y - 1 in y * 365 + y / 4 - y / 100 + y / 400.

(** [_DAYS_IN_MONTH], indexed from 1. *)
Definition _DAYS_IN_MONTH (m : Z) : Z :=
  match m with
  | 1 => 31 | 2 => 28 | 3 => 31 | 4 => 30 | 5 => 31 | 6 => 30
  | 7 => 31 | 8 => 31 | 9 => 30 | 10 => 31 | 11 => 30 | 12 => 31
  | _ => 0
  end.

(** [_DAYS_BEFORE_MONTH], indexed from 1. *)
Definition _DAYS_BEFORE_MONTH (m : Z) : Z :=
  match m with
  | 1 => 0 | 2 => 31 | 3 => 59 | 4 => 90 | 5 => 120 | 6 => 151
  | 7 => 181 | 8 => 212 | 9 => 243 | 10 => 273 | 11 => 304 | 12 => 334
  | _ => 0
  end.

(** [_days_in_month(year, month)] *)
Definition _days_in_month (y m : Z) : Z :=
  if (m =? 2) && _is_leap y then 29 else _DAYS_IN_MONTH m.

(** [_days_before_month(year, month)] *)
Definition _days_before_month (y m : Z) : Z :=
  _DAYS_BEFORE_MONTH m + (if (2 <? m) && _is_leap y then 1 else 0).

(** [_ymd2ord(year, month, day)]: 0001-01-01 is day 1. *)
Definition _ymd2ord (y m d : Z) : Z :=
  _days_before_year y + _days_before_month y m + d.

Definition _DI400Y : Z := 146097.
Definition _DI100Y : Z := 36524.
Definition _DI4Y : Z := 1461.

(** [_ord2ymd(n)] *)
Definition _ord2ymd (n : Z) : date :=
  let n := n - 1 in
  let n400 := n / _DI400Y in
  let n := n mod _DI400Y in
  let y := n400 * 400 + 1 in
  let n100 := n / _DI100Y in
  let n := n mod _DI100Y in
  let n4 := n / _DI4Y in
  let n := n mod _DI4Y in
  let n1 := n / 365 in
  let n := n mod 365 in
  let y := y + n100 * 100 + n4 * 4 + n1 in
  if (n1 =? 4) || (n100 =? 4) then mkdate (y - 1) 12 31
  else
    let leapyear := (n1 =? 3) && (negb (n4 =? 24) || (n100 =? 3)) in
    let m := Z.shiftr (n + 50) 5 in
    let preceding :=
      _DAYS_BEFORE_MONTH m + (if (2 <? m) && leapyear then 1 else 0) in
    if n <? preceding then
      let m := m - 1 in
      let preceding :=
        preceding - (_DAYS_IN_MONTH m
                     + (if (m =? 2) && leapyear then 1 else 0)) in
      mkdate y m (n - preceding + 1)
    else mkdate y m (n - preceding + 1).

(** The dates a [date] object can hold (what its constructor checks). *)
Definition valid (d : date) : Prop :=
  MINYEAR <= year d <= MAXYEAR /\ 1 <= month d <= 12 /\
  1 <= day d <= _days_in_month (year d) (month d).

Definition validb (d : date) : bool :=
  (MINYEAR <=? year d) && (year d <=? MAXYEAR) &&
  (1 <=? month d) && (month d <=? 12) &&
  (1 <=? day d) && (day d <=? _days_in_month (year d) (month d)).

(** [date.toordinal()] *)
Definition toordinal (d : date) : Z := _ymd2ord (year d) (month d) (day d).

Definition _MAXORDINAL : Z := 3652059.

(** [date.fromordinal(n)]; out of range is a [ValueError] / [OverflowError]. *)
Definition fromordinal (n : Z) : option date :=
  if (1 <=? n) && (n <=? _MAXORDINAL) then Some (_ord2ymd n) else None.

(** [date.weekday()]: Monday is 0, Sunday is 6. *)
Definition weekday (d : date) : Z := (toordinal d + 6) mod 7.

(** [d - timedelta(days=k)] *)
Definition sub_days (d : date) (k : Z) : option date :=
  fromordinal (toordinal d - k).

(** [d.replace(day=1)] and [d.replace(month=1, day=1)]: both always name
    an existing day, so the constructor's check cannot fail. *)
Definition replace_day1 (d : date) : date := mkdate (year d) (month d) 1.
Definition replace_month1_day1 (d : date) : date := mkdate (year d) 1 1.

(** Python orders dates as the tuples [(year, month, day)]. *)
Definition compare_date (a b : date) : comparison :=
  match year a ?= year b with
  | Eq => match month a ?= month b with
          | Eq => day a ?= day b
          | c => c
          end
  | c => c
  end.

(** [a <= b] on dates. *)
Definition date_le (a b : date) : Prop := compare_date a b <> Gt.

(** ** [strftime('%Y-%m-%d')] *)

Definition digit (n : Z) : ascii := ascii_of_N (48 + Z.to_N (n mod 10)).

Definition pad2 (n : Z) : string :=
  String (digit (n / 10)) (String (digit n) EmptyString).

Definition pad4 (n : Z) : string :=
  String (digit (n / 1000)) (String (digit (n / 100))
    (String (digit (n / 10)) (String (digit n) EmptyString))).

(** ISO 8601 text, [YYYY-MM-DD], zero padded as the library documents
    [%Y], [%m] and [%d] (years 0001 to 9999).  *)
Definition strftime (d : date) : string :=
  pad4 (year d) ++ "-" ++ pad2 (month d) ++ "-" ++ pad2 (day d).

End Calendar.

(* ================================================================== *)
(** * Generic list helpers used by the SQL engine                      *)
(* ================================================================== *)

Section Sorting.
Context {A : Type}.
(** [before y x]: [y] must come strictly before [x] in the output. *)
Variable before : A -> A -> bool.

Fixpoint insert_by (x : A) (l : list A) : list A :=
  match l with
  | [] => [x]
  | y :: l' => if before y x then y :: insert_by x l' else x :: l
  end.

(** A stable insertion sort: rows that tie keep their input order. *)
Definition sort_by (l : list A) : list A := fold_right insert_by [] l.
End Sorting.

(** Text comparison under SQLite's default [BINARY] collation. *)
Definition text_lt (a b : string) : bool := String.ltb a b.
Definition text_le (a b : string) : bool := String.leb a b.

(** SQLite's [LIKE]: [%] matches any run of characters, [_] any single
    one, and letters of the ASCII range match without regard to case. *)
Definition ascii_upper (c : ascii) : ascii :=
  let n := N_of_ascii c in
  if (97 <=? n)%N && (n <=? 122)%N then ascii_of_N (n - 32) else c.

Fixpoint like_chars (pat : list ascii) : list ascii -> bool :=
  match pat with
  | [] => fun s => match s with [] => true | _ :: _ => false end
  | p :: pat' =>
      if Ascii.eqb p "%"%char then
        fix skip (s : list ascii) : bool :=
          like_chars pat' s
          || match s with [] => false | _ :: s' => skip s' end
      else fun s =>
        match s with
        | [] => false
        | c :: s' =>
            (Ascii.eqb p "_"%char
             || Ascii.eqb (ascii_upper p) (ascii_upper c))
            && like_chars pat' s'
        end
  end.

Definition sql_like (text pat : string) : bool :=
  like_chars (list_ascii_of_string pat) (list_ascii_of_string text).

(* ================================================================== *)
(** * The store: three SQLite tables                                   *)
(* ================================================================== *)

Section Store.
Context {R : Real}.

(** Python values that cross the [sqlite3] boundary. *)
Inductive value : Type :=
| VNone
| VInt (z : Z)
| VFloat (x : real)
| VStr (s : string).

(** A result row is a tuple. *)
Definition row : Type := list value.

(** Python exceptions.  [sqlite3.Error] is the base class of every error
    the database module raises ([OperationalError], [IntegrityError],
    [ProgrammingError], ...); [sqlite3.Warning] is not derived from it. *)
Inductive sqlite3_class : Type :=
| OperationalError | IntegrityError | ProgrammingError | DatabaseError
| InterfaceError.

Inductive exn : Type :=
| Sqlite3Error (cls : sqlite3_class) (msg : string)
| Sqlite3Warning (msg : string)
| IndexError (msg : string)
| TypeError (msg : string)
| ZeroDivisionError (msg : string)
| OverflowError (msg : string)
| OtherException (name msg : string).

Definition str_exn (e : exn) : string :=
  match e with
  | Sqlite3Error _ m | Sqlite3Warning m | IndexError m | TypeError m
  | ZeroDivisionError m | OverflowError m | OtherException _ m => m
  end.

(** [isinstance(e, sqlite3.Error)] *)
Definition is_sqlite3_Error (e : exn) : bool :=
  match e with Sqlite3Error _ _ => true | _ => false end.

(** [expenses (id INTEGER PRIMARY KEY AUTOINCREMENT, date TEXT NOT NULL,
    category TEXT NOT NULL, amount REAL NOT NULL, description TEXT NOT
    NULL, created_at TIMESTAMP DEFAULT CURRENT_TIMESTAMP)] *)
Record expense : Type := mkexpense {
  e_id : Z;
  e_date : string;
  e_category : string;
  e_amount : real;
  e_description : string;
  e_created_at : string
}.

(** [budget (id INTEGER PRIMARY KEY, monthly_budget REAL NOT NULL,
    updated_at TIMESTAMP DEFAULT CURRENT_TIMESTAMP)] *)
Record budget_row : Type := mkbudget {
  b_id : Z;
  b_monthly_budget : real;
  b_updated_at : string
}.

(** [categories (id INTEGER PRIMARY KEY AUTOINCREMENT, name TEXT UNIQUE
    NOT NULL, created_at TIMESTAMP DEFAULT CURRENT_TIMESTAMP)] *)
Record category_row : Type := mkcategory {
  c_id : Z;
  c_name : string;
  c_created_at : string
}.

(** Rows are kept in insertion (rowid) order; the [_seq] fields are the
    [sqlite_sequence] counters of the two AUTOINCREMENT tables. *)
Record store : Type := mkstore {
  expenses : list expense;
  expenses_seq : Z;
  budget : list budget_row;
  categories : list category_row;
  categories_seq : Z
}.

Definition empty_store : store := mkstore [] 0 [] [] 0.

(** The [WHERE] conditions [get_expenses] can append. *)
Inductive clause : Type :=
| DateGe (d : string)            (* AND date >= ? *)
| DateLe (d : string)            (* AND date <= ? *)
| CategoryEq (c : string)        (* AND category = ? *)
| AmountGe (a : real)            (* AND amount >= ? *)
| AmountLe (a : real)            (* AND amount <= ? *)
| DescriptionLike (pat : string) (* AND description LIKE ? *).

(** The statements of the program, each with its bound parameters.  A
    [window] is the parameter pair of [WHERE date BETWEEN ? AND ?]. *)
Inductive statement : Type :=
| CreateTablesIfNotExist
| InsertOrIgnoreCategory (name : string)
| InsertExpense (date category : string) (amount : real)
                (description : string)
| SelectExpenses (where_ : list clause)
| SelectSumAmount (window : option (string * string))
| SelectCategoryTotals (window : option (string * string))
| SelectCategoryNames
| InsertCategory (name : string)
| SelectBudgetId
| UpdateBudget (amount : real)
| InsertBudget (amount : real)
| SelectMonthlyBudget.

(** ** Evaluation of the statements *)

Definition holds (c : clause) (e : expense) : bool :=
  match c with
  | DateGe d => text_le d (e_date e)
  | DateLe d => text_le (e_date e) d
  | CategoryEq c => String.eqb (e_category e) c
  | AmountGe a => rleb a (e_amount e)
  | AmountLe a => rleb (e_amount e) a
  | DescriptionLike pat => sql_like (e_description e) pat
  end.

(** [date BETWEEN lo AND hi] is [date >= lo AND date <= hi]. *)
Definition between (lo hi : string) (e : expense) : bool :=
  text_le lo (e_date e) && text_le (e_date e) hi.

Definition in_window (w : option (string * string)) (e : expense) : bool :=
  match w with
  | Some (lo, hi) => between lo hi e
  | None => true
  end.

(** [SUM(x)] accumulates from [0.0] in scan order. *)
Definition rsum (l : list real) : real := fold_left radd l r0.

(** [SUM(amount)] over the selected rows: [NULL] when there is none. *)
Definition sql_sum (es : list expense) : value :=
  match es with
  | [] => VNone
  | _ :: _ => VFloat (rsum (map e_amount es))
  end.

(** [GROUP BY category] with [SUM(amount)]: one running total per
    category, in order of first appearance. *)
Fixpoint add_to_group (c : string) (a : real) (g : list (string * real))
  : list (string * real) :=
  match g with
  | [] => [(c, radd r0 a)]
  | (c', t) :: g' =>
      if String.eqb c' c then (c', radd t a) :: g'
      else (c', t) :: add_to_group c a g'
  end.

Definition group_totals (es : list expense) : list (string * real) :=
  fold_left (fun g e => add_to_group (e_category e) (e_amount e) g) es [].

(** [SELECT category, SUM(amount) as total ... GROUP BY category ORDER BY
    total DESC]: groups come out of the grouping step ordered by category
    and are then ordered by total, largest first.  SQLite promises no
    order among equal totals; here they stay in category order. *)
Definition category_totals (es : list expense) : list (string * real) :=
  sort_by (fun y x => rltb (snd x) (snd y))
    (sort_by (fun y x => text_lt (fst y) (fst x)) (group_totals es)).

Definition expense_tuple (e : expense) : row :=
  [VInt (e_id e); VStr (e_date e); VStr (e_category e);
   VFloat (e_amount e); VStr (e_description e)].

Definition max_id {T : Type} (id : T -> Z) (l : list T) : Z :=
  fold_right (fun x m => Z.max (id x) m) 0 l.

(** The rowid an AUTOINCREMENT table hands out next. *)
Definition next_id {T : Type} (id : T -> Z) (seq : Z) (l : list T) : Z :=
  Z.max seq (max_id id l) + 1.

Definition has_name (n : string) (cs : list category_row) : bool :=
  existsb (fun c => String.eqb (c_name c) n) cs.

Definition has_budget_id (i : Z) (bs : list budget_row) : bool :=
  existsb (fun b => b_id b =? i) bs.

Definition insert_category (now : string) (n : string) (s : store) : store :=
  let i := next_id c_id (categories_seq s) (categories s) in
  mkstore (expenses s) (expenses_seq s) (budget s)
          (categories s ++ [mkcategory i n now]) i.

(** [sqlite_execute now s q]: run one statement against [s] at
    [CURRENT_TIMESTAMP = now].  The outcome is either an exception or the
    result rows together with the store the statement leaves.  A NaN bound
    to a parameter is stored as [NULL], which the [NOT NULL] columns
    reject. *)
Definition sqlite_execute (now : string) (s : store) (q : statement)
  : exn + (list row * store) :=
  match q with
  | CreateTablesIfNotExist => inr ([], s)
  | InsertOrIgnoreCategory n =>
      if has_name n (categories s) then inr ([], s)
      else inr ([], insert_category now n s)
  | InsertExpense d c a descr =>
      if is_nan a then
        inl (Sqlite3Error IntegrityError
               "NOT NULL constraint failed: expenses.amount")
      else
        let i := next_id e_id (expenses_seq s) (expenses s) in
        inr ([], mkstore (expenses s ++ [mkexpense i d c a descr now]) i
                         (budget s) (categories s) (categories_seq s))
  | SelectExpenses cs =>
      let sel := filter (fun e => forallb (fun c => holds c e) cs)
                        (expenses s) in
      inr (map expense_tuple
             (sort_by (fun y x => text_lt (e_date x) (e_date y)) sel), s)
  | SelectSumAmount w =>
      inr ([[sql_sum (filter (in_window w) (expenses s))]], s)
  | SelectCategoryTotals w =>
      inr (map (fun g => [VStr (fst g); VFloat (snd g)])
             (category_totals (filter (in_window w) (expenses s))), s)
  | SelectCategoryNames =>
      inr (map (fun c => [VStr (c_name c)])
             (sort_by (fun y x => text_lt (c_name y) (c_name x))
                (categories s)), s)
  | InsertCategory n =>
      if has_name n (categories s) then
        inl (Sqlite3Error IntegrityError
               "UNIQUE constraint failed: categories.name")
      else inr ([], insert_category now n s)
  | SelectBudgetId =>
      inr (map (fun b => [VInt (b_id b)])
             (filter (fun b => b_id b =? 1) (budget s)), s)
  | UpdateBudget a =>
      if existsb (fun b => b_id b =? 1) (budget s) && is_nan a then
        inl (Sqlite3Error IntegrityError
               "NOT NULL constraint failed: budget.monthly_budget")
      else
        inr ([], mkstore (expenses s) (expenses_seq s)
                   (map (fun b => if b_id b =? 1
                                  then mkbudget 1 a now else b) (budget s))
                   (categories s) (categories_seq s))
  | InsertBudget a =>
      if is_nan a then
        inl (Sqlite3Error IntegrityError
               "NOT NULL constraint failed: budget.monthly_budget")
      else if has_budget_id 1 (budget s) then
        inl (Sqlite3Error IntegrityError
               "UNIQUE constraint failed: budget.id")
      else
        inr ([], mkstore (expenses s) (expenses_seq s)
                   (budget s ++ [mkbudget 1 a now])
                   (categories s) (categories_seq s))
  | SelectMonthlyBudget =>
      inr (map (fun b => [VFloat (b_monthly_budget b)])
             (filter (fun b => b_id b =? 1) (budget s)), s)
  end.

End Store.

(* ================================================================== *)
(** * The Python side                                                  *)
(* ================================================================== *)

Section Program.
Context {R : Real}.

(** What a run of the program can observe and change: the database file,
    the backend failures still to come (one slot per call into [sqlite3];
    [None] and an exhausted schedule mean the call works), the console,
    the local date and the UTC clock read by [CURRENT_TIMESTAMP].  The
    schedule stands for everything outside the program that makes a call
    fail: a file that cannot be opened, a full disk, a lock still held by
    a connection that an earlier failed call left open. *)
Record world : Type := mkworld {
  db : store;
  faults : list (option exn);
  stdout : list string;
  today : Calendar.date;
  utc_now : string
}.

Definition set_db (s : store) (w : world) : world :=
  mkworld s (faults w) (stdout w) (today w) (utc_now w).
Definition set_faults (fs : list (option exn)) (w : world) : world :=
  mkworld (db w) fs (stdout w) (today w) (utc_now w).
Definition write_line (line : string) (w : world) : world :=
  mkworld (db w) (faults w) (stdout w ++ [line]) (today w) (utc_now w).

Inductive result (A : Type) : Type :=
| Ret (a : A)
| Raise (e : exn).
Arguments Ret {A} a.
Arguments Raise {A} e.

(** Python code: it runs in a world, returns or raises, and leaves a world. *)
Definition py (A : Type) : Type := world -> result A * world.

Definition ret {A : Type} (a : A) : py A := fun w => (Ret a, w).
Definition raise {A : Type} (e : exn) : py A := fun w => (Raise e, w).

Definition bind {A B : Type} (m : py A) (k : A -> py B) : py B :=
  fun w => match m w with
           | (Ret a, w') => k a w'
           | (Raise e, w') => (Raise e, w')
           end.

(** [try: body except <class> as e: handler]; [handler e = None] when the
    [except] clause does not match and the exception goes on. *)
Definition try_except {A : Type} (body : py A)
           (handler : exn -> option (py A)) : py A :=
  fun w => match body w with
           | (Ret a, w') => (Ret a, w')
           | (Raise e, w') =>
               match handler e with
               | Some h => h w'
               | None => (Raise e, w')
               end
           end.

End Program.

Arguments Ret {A} a.
Arguments Raise {A} e.

Declare Scope py_scope.
Delimit Scope py_scope with py.
Notation "x <- m ;; k" := (bind m (fun x => k))
  (at level 100, m at next level, right associativity) : py_scope.
Notation "m ;;; k" := (bind m (fun _ => k))
  (at level 100, right associativity) : py_scope.
Local Open Scope py_scope.

Section Builtins.
Context {R : Real}.

(** [print(line)] *)
Definition print (line : string) : py unit := fun w =>
  (Ret tt, write_line line w).

(** [datetime.now().date()] *)
Definition datetime_now_date : py Calendar.date := fun w => (Ret (today w), w).

(** [bool(v)] *)
Definition truthy (v : value) : bool :=
  match v with
  | VNone => false
  | VInt z => negb (z =? 0)
  | VFloat x => nonzero x
  | VStr s => negb (String.eqb s "")
  end.

(** [l[i]] on a list or a tuple, for a non-negative [i]. *)
Definition getitem {A : Type} (l : list A) (i : nat) : py A :=
  match nth_error l i with
  | Some a => ret a
  | None => raise (IndexError "list index out of range")
  end.

(** Arithmetic on Python numbers: two ints stay ints (true division
    excepted), an int meeting a float is converted first.  Division of two
    ints goes through [float] here, which is exact below 2^53. *)
Definition to_real (v : value) : option real :=
  match v with
  | VInt z => Some (rofZ z)
  | VFloat x => Some x
  | _ => None
  end.

Definition py_sub (a b : value) : py value :=
  match a, b with
  | VInt x, VInt y => ret (VInt (x - y))
  | _, _ =>
      match to_real a, to_real b with
      | Some x, Some y => ret (VFloat (rsub x y))
      | _, _ => raise (TypeError "unsupported operand type(s) for -")
      end
  end.

Definition py_mul (a b : value) : py value :=
  match a, b with
  | VInt x, VInt y => ret (VInt (x * y))
  | _, _ =>
      match to_real a, to_real b with
      | Some x, Some y => ret (VFloat (rmul x y))
      | _, _ => raise (TypeError "unsupported operand type(s) for *")
      end
  end.

Definition py_truediv (a b : value) : py value :=
  match to_real a, to_real b with
  | Some x, Some y =>
      if reqb y r0 then raise (ZeroDivisionError "division by zero")
      else ret (VFloat (rdiv x y))
  | _, _ => raise (TypeError "unsupported operand type(s) for /")
  end.

(** [a > b] *)
Definition py_gt (a b : value) : py bool :=
  match a, b with
  | VInt x, VInt y => ret (y <? x)
  | _, _ =>
      match to_real a, to_real b with
      | Some x, Some y => ret (rltb y x)
      | _, _ => raise (TypeError "'>' not supported")
      end
  end.

(** ** The [sqlite3] module *)

(** Every call into the module may fail the way the schedule says. *)
Definition fault_point : py unit := fun w =>
  match faults w with
  | [] => (Ret tt, w)
  | None :: fs => (Ret tt, set_faults fs w)
  | Some e :: fs => (Raise e, set_faults fs w)
  end.

(** [sqlite3.connect(self.db_path)]: the connection works on its own view
    of the file until it commits. *)
Definition sqlite3_connect : py store :=
  fault_point ;;; (fun w => (Ret (db w), w)).

(** [cursor.execute(query, params)] followed by [cursor.fetchall()]. *)
Definition cursor_execute (conn : store) (q : statement)
  : py (list row * store) :=
  fault_point ;;;
  (fun w => match sqlite_execute (utc_now w) conn q with
            | inl e => (Raise e, w)
            | inr r => (Ret r, w)
            end).

(** [conn.commit()]: the connection's view becomes the file. *)
Definition conn_commit (conn : store) : py unit :=
  fault_point ;;;
  (fun w => (Ret tt, set_db conn w)).

(** [except sqlite3.Error as e: print(f"<prefix>: {e}"); return <dflt>] *)
Definition except_sqlite3_Error {A : Type} (prefix : string) (dflt : A)
  (e : exn) : option (py A) :=
  if is_sqlite3_Error e
  then Some (print (prefix ++ ": " ++ str_exn e) ;;; ret dflt)
  else None.

(** ** [class DatabaseManager] *)

Definition default_categories : list string :=
  ["Food"; "Travel"; "Rent"; "Shopping"; "Utilities"; "Healthcare";
   "Entertainment"].

(** The [for category in default_categories] loop of [init_database]. *)
Fixpoint insert_defaults (conn : store) (names : list string) : py store :=
  match names with
  | [] => ret conn
  | n :: names' =>
      r <- cursor_execute conn (InsertOrIgnoreCategory n) ;;
      insert_defaults (snd r) names'
  end.

Definition init_database : py unit :=
  try_except
    (conn <- sqlite3_connect ;;
     r <- cursor_execute conn CreateTablesIfNotExist ;;
     conn <- insert_defaults (snd r) default_categories ;;
     conn_commit conn)
    (except_sqlite3_Error "Database error" tt).

(** The [try] block of [execute_query]. *)
Definition query_try (q : statement) : py (list row) :=
  conn <- sqlite3_connect ;;
  r <- cursor_execute conn q ;;
  ret (fst r).

Definition execute_query (q : statement) : py (list row) :=
  try_except (query_try q)
    (except_sqlite3_Error "Database query error" []).

(** The [try] block of [execute_update]. *)
Definition update_try (q : statement) : py bool :=
  conn <- sqlite3_connect ;;
  r <- cursor_execute conn q ;;
  conn_commit (snd r) ;;;
  ret true.

Definition execute_update (q : statement) : py bool :=
  try_except (update_try q)
    (except_sqlite3_Error "Database update error" false).

(** ** [class ExpenseManager] *)

Definition add_expense (date category : string) (amount : real)
           (description : string) : py bool :=
  execute_update (InsertExpense date category amount description).

(** [if s:] for an [Optional[str]] argument. *)
Definition given (s : option string) : option string :=
  match s with
  | Some t => if String.eqb t "" then None else Some t
  | None => None
  end.

Definition opt_clause {A : Type} (mk : A -> clause) (o : option A)
  : list clause :=
  match o with Some a => [mk a] | None => [] end.

Definition get_expenses (start_date end_date category : option string)
           (min_amount max_amount : option real) (keyword : option string)
  : py (list row) :=
  let where_ :=
    (opt_clause DateGe (given start_date)
     ++ opt_clause DateLe (given end_date)
     ++ opt_clause CategoryEq (given category)
     ++ opt_clause AmountGe min_amount
     ++ opt_clause AmountLe max_amount
     ++ opt_clause (fun k => DescriptionLike ("%" ++ k ++ "%"))
                   (given keyword))%list
  in execute_query (SelectExpenses where_).

Record summary : Type := mksummary {
  total_amount : value;
  category_breakdown : list row;
  period : string;
  start_date : option string;
  end_date : option string
}.

(** The [if]/[elif] chain of [get_expense_summary] that turns a period into
    its pair of date strings. *)
Definition period_dates (period : string) (today : Calendar.date)
  : py (option string * option string) :=
  if String.eqb period "daily" then
    let start_date := Calendar.strftime today in
    ret (Some start_date, Some start_date)
  else if String.eqb period "weekly" then
    match Calendar.sub_days today (Calendar.weekday today) with
    | Some monday =>
        ret (Some (Calendar.strftime monday),
             Some (Calendar.strftime today))
    | None => raise (OverflowError "date value out of range")
    end
  else if String.eqb period "monthly" then
    ret (Some (Calendar.strftime (Calendar.replace_day1 today)),
         Some (Calendar.strftime today))
  else if String.eqb period "yearly" then
    ret (Some (Calendar.strftime (Calendar.replace_month1_day1 today)),
         Some (Calendar.strftime today))
  else ret (None, None).

(** [if start_date and end_date:] selects the windowed statement. *)
Definition window_of (start_date end_date : option string)
  : option (string * string) :=
  match given start_date, given end_date with
  | Some s, Some e => Some (s, e)
  | _, _ => None
  end.

Definition get_expense_summary (period : string) : py summary :=
  today <- datetime_now_date ;;
  dates <- period_dates period today ;;
  let start_date := fst dates in
  let end_date := snd dates in
  total_result <-
    execute_query (SelectSumAmount (window_of start_date end_date)) ;;
  first <- getitem total_result 0 ;;
  cell <- getitem first 0 ;;
  let total_amount := if truthy cell then cell else VFloat r0 in
  category_result <-
    execute_query (SelectCategoryTotals (window_of start_date end_date)) ;;
  ret (mksummary total_amount category_result period start_date end_date).

(** ** [class CategoryManager] *)

(** [[result[0] for result in results]] *)
Fixpoint first_columns (results : list row) : py (list value) :=
  match results with
  | [] => ret []
  | r :: rest =>
      v <- getitem r 0 ;;
      vs <- first_columns rest ;;
      ret (v :: vs)
  end.

Definition get_categories : py (list value) :=
  results <- execute_query SelectCategoryNames ;;
  first_columns results.

Definition add_category (name : string) : py bool :=
  execute_update (InsertCategory name).

(** ** [class BudgetManager] *)

Definition set_monthly_budget (amount : real) : py bool :=
  exists_ <- execute_query SelectBudgetId ;;
  match exists_ with
  | _ :: _ => execute_update (UpdateBudget amount)
  | [] => execute_update (InsertBudget amount)
  end.

(** Returns [None] (here [VNone]) when no budget row is found. *)
Definition get_monthly_budget : py value :=
  result <- execute_query SelectMonthlyBudget ;;
  match result with
  | _ :: _ => first <- getitem result 0 ;; getitem first 0
  | [] => ret VNone
  end.

Record budget_status : Type := mkstatus {
  st_budget : value;
  st_spent : value;
  st_remaining : value;
  st_percentage : value
}.

Definition get_budget_status : py budget_status :=
  budget <- get_monthly_budget ;;
  if negb (truthy budget) then
    ret (mkstatus VNone (VInt 0) (VInt 0) (VInt 0))
  else
    today <- datetime_now_date ;;
    let month_start := Calendar.strftime (Calendar.replace_day1 today) in
    let month_end := Calendar.strftime today in
    spent_result <-
      execute_query (SelectSumAmount (Some (month_start, month_end))) ;;
    first <- getitem spent_result 0 ;;
    cell <- getitem first 0 ;;
    let spent := if truthy cell then cell else VFloat r0 in
    remaining <- py_sub budget spent ;;
    positive <- py_gt budget (VInt 0) ;;
    percentage <-
      (if positive then
         q <- py_truediv spent budget ;; py_mul q (VInt 100)
       else ret (VInt 0)) ;;
    ret (mkstatus budget spent remaining percentage).

End Builtins.

(* ================================================================== *)
(** * Vocabulary of the statements                                     *)
(* ================================================================== *)

Import Calendar.

(** The month and day-of-month step of [_ord2ymd], on the day [n] of a year
    (counted from 0) that is leap or not. *)
Definition month_day (n : Z) (leapyear : bool) : Z * Z :=
  let m := Z.shiftr (n + 50) 5 in
  let preceding :=
    _DAYS_BEFORE_MONTH m + (if (2 <? m) && leapyear then 1 else 0) in
  if n <? preceding then
    let m := m - 1 in
    let preceding :=
      preceding - (_DAYS_IN_MONTH m + (if (m =? 2) && leapyear then 1 else 0)) in
    (m, n - preceding + 1)
  else (m, n - preceding + 1).

(** [month_day] names an existing day, and that day is day [n] of the
    year. *)
Definition month_day_ok (leap : bool) (n : Z) : bool :=
  let '(m, d) := month_day n leap in
  (1 <=? m) && (m <=? 12) && (1 <=? d)
  && (d <=? (if (m =? 2) && leap then 29 else _DAYS_IN_MONTH m))
  && (_DAYS_BEFORE_MONTH m + (if (2 <? m) && leap then 1 else 0) + d =? n + 1).

(** [p] holds of [0], ..., [k - 1]. *)
Fixpoint all_below (p : Z -> bool) (k : nat) : bool :=
  match k with
  | O => true
  | S k' => if p (Z.of_nat k') then all_below p k' else false
  end.

(** The split of a day number into 400-, 100-, 4- and 1-year cycles. *)
Record cycles (n q n100 n4 n1 r3 : Z) : Prop := {
  cy_sum : n - 1 = 146097 * q + 36524 * n100 + 1461 * n4 + 365 * n1 + r3;
  cy_n100 : 0 <= n100 <= 4;
  cy_n4 : 0 <= n4 <= 24;
  cy_n1 : 0 <= n1 <= 4;
  cy_r3 : 0 <= r3 < 365;
  cy_r1 : 1461 * n4 + 365 * n1 + r3 < 36524;
  cy_r2 : 365 * n1 + r3 < 1461;
  cy_r : 36524 * n100 + 1461 * n4 + 365 * n1 + r3 < 146097
}.

Section Vocabulary.
Context {R : Real}.

(** Every pending backend failure is a [sqlite3.Error]. *)
Definition sqlite_faults (w : world) : Prop :=
  forall e, In (Some e) (faults w) -> is_sqlite3_Error e = true.

(** [get_expenses()] with no filter at all. *)
Definition all_expenses : py (list row) :=
  get_expenses None None None None None None.

(** The names in the registry, in insertion order. *)
Definition category_names (s : store) : list string :=
  map c_name (categories s).

(** Adding a name twice as a silent success: the call reports success and
    leaves the world as it was. *)
Definition duplicate_add_is_silent : Prop :=
  forall w name,
    faults w = [] -> In name (category_names (db w)) ->
    add_category name w = (Ret true, w).

(** [fs] is what remains of the schedule [all] after some calls. *)
Definition suffix (fs all : list (option exn)) : Prop :=
  exists used, all = (used ++ fs)%list.

(** The three ways [execute_query q] can end in [w]: the statement ran
    and its rows come back; a [sqlite3.Error] was caught, printed and
    turned into [[]]; or another exception went through. *)
Inductive query_outcome (q : statement) (w : world)
  : result (list row) -> world -> Prop :=
| qo_rows rows s' fs :
    suffix fs (faults w) ->
    sqlite_execute (utc_now w) (db w) q = inr (rows, s') ->
    query_outcome q w (Ret rows) (set_faults fs w)
| qo_failed e fs :
    suffix fs (faults w) ->
    is_sqlite3_Error e = true ->
    query_outcome q w (Ret [])
      (write_line ("Database query error: " ++ str_exn e) (set_faults fs w))
| qo_raised e fs :
    suffix fs (faults w) ->
    is_sqlite3_Error e = false -> In (Some e) (faults w) ->
    query_outcome q w (Raise e) (set_faults fs w).

(** The three ways [execute_update q] can end in [w]: the statement ran
    and was committed; a [sqlite3.Error] was caught, printed and turned
    into [False]; or another exception went through. *)
Inductive update_outcome (q : statement) (w : world)
  : result bool -> world -> Prop :=
| uo_done rows s' fs :
    suffix fs (faults w) ->
    sqlite_execute (utc_now w) (db w) q = inr (rows, s') ->
    update_outcome q w (Ret true) (set_db s' (set_faults fs w))
| uo_failed e fs :
    suffix fs (faults w) ->
    is_sqlite3_Error e = true ->
    update_outcome q w (Ret false)
      (write_line ("Database update error: " ++ str_exn e) (set_faults fs w))
| uo_raised e fs :
    suffix fs (faults w) ->
    is_sqlite3_Error e = false -> In (Some e) (faults w) ->
    update_outcome q w (Raise e) (set_faults fs w).

(** The budget table holds at most one row, and that row has [id = 1]. *)
Definition budget_ok (s : store) : Prop :=
  (List.length (budget s) <= 1)%nat /\ forall b, In b (budget s) -> b_id b = 1.

(** The store [s] with [bs] as its budget table. *)
Definition with_budget (bs : list budget_row) (s : store) : store :=
  mkstore (expenses s) (expenses_seq s) bs (categories s) (categories_seq s).

(** A run of [set_monthly_budget] calls, one per amount. *)
Fixpoint set_budgets (amounts : list real) : py unit :=
  match amounts with
  | [] => ret tt
  | a :: rest => set_monthly_budget a ;;; set_budgets rest
  end.

(** What both callers make of the [SUM(amount)] cell:
    [cell if cell else 0.0]. *)
Definition total_of (es : list expense) : real :=
  let s := rsum (map e_amount es) in if nonzero s then s else r0.

(** [reported] is [sum], except that a sum comparing equal to zero is
    reported as the literal [0.0]. *)
Definition same_number (reported sum : real) : Prop :=
  reported = sum \/ (reqb sum r0 = true /\ reported = r0).

(** The window [get_budget_status] sums over: the first of the month to
    today. *)
Definition month_window (today : Calendar.date) : option (string * string) :=
  Some (Calendar.strftime (Calendar.replace_day1 today),
        Calendar.strftime today).

(** The expenses of [s] whose date text lies in the window. *)
Definition selected (win : option (string * string)) (s : store)
  : list expense :=
  filter (in_window win) (expenses s).

(** [{'budget': None, 'spent': 0, 'remaining': 0, 'percentage': 0}] *)
Definition no_budget : budget_status :=
  mkstatus VNone (VInt 0) (VInt 0) (VInt 0).

(** The window each period stands for, as the specification words it. *)
Inductive period_window (today : date) : string -> option (date * date) -> Prop :=
| pw_daily : period_window today "daily" (Some (today, today))
| pw_weekly monday :
    valid monday -> weekday monday = 0 ->
    toordinal monday <= toordinal today < toordinal monday + 7 ->
    period_window today "weekly" (Some (monday, today))
| pw_monthly :
    period_window today "monthly"
      (Some (mkdate (year today) (month today) 1, today))
| pw_yearly :
    period_window today "yearly" (Some (mkdate (year today) 1 1, today))
| pw_all p :
    p <> "daily" -> p <> "weekly" -> p <> "monthly" -> p <> "yearly" ->
    period_window today p None.

(** The two ends of a window as the text bound to the statement. *)
Definition window_text (win : option (date * date))
  : option (string * string) :=
  match win with
  | Some (lo, hi) => Some (strftime lo, strftime hi)
  | None => None
  end.

(** [d] lies in the inclusive window; no window means no constraint. *)
Definition in_dates (win : option (date * date)) (d : date) : Prop :=
  match win with
  | Some (lo, hi) => date_le lo d /\ date_le d hi
  | None => True
  end.

(** Both ends of the window are dates of the calendar. *)
Definition window_valid (win : option (date * date)) : Prop :=
  match win with
  | Some (lo, hi) => valid lo /\ valid hi
  | None => True
  end.

(** The amount of a breakdown entry [(category, total)]. *)
Definition entry_amount (r : row) : real :=
  match r with
  | [_; VFloat t] => t
  | _ => r0
  end.

(** [sum(total for _, total in category_breakdown)] *)
Definition breakdown_sum (rows : list row) : real :=
  rsum (map entry_amount rows).

(** The entries of a summary's breakdown add up to its total. *)
Definition breakdown_adds_up : Prop :=
  forall w p s w',
    get_expense_summary p w = (Ret s, w') ->
    total_amount s = VFloat (breakdown_sum (category_breakdown s)).

End Vocabulary.

(** ** Concrete ledgers *)

Definition demo_today : date := mkdate 2026 11 3.
Definition demo_now : string := "2026-11-03 12:00:00".

(** The world after a first start of the program: [init_database] has run
    on a new file, nothing has been recorded and the backend works. *)
Definition fresh_world (R : Real) : world :=
  snd (init_database (mkworld empty_store [] [] demo_today demo_now)).

(** Three expenses of this month, in doubles: 0.2 and 0.1 on food, 0.3 on
    rent (the nearest doubles, written exactly). *)
Definition rounding_world : @world binary64 :=
  snd ((add_expense (R := binary64) "2026-11-02" "Food"
          0x1.999999999999ap-3%float "bread" ;;;
        add_expense (R := binary64) "2026-11-03" "Rent"
          0x1.3333333333333p-2%float "garage" ;;;
        add_expense (R := binary64) "2026-11-03" "Food"
          0x1.999999999999ap-4%float "gum")%py (fresh_world binary64)).

(** The same three expenses counted in cents. *)
Definition cents_world : @world exact_units :=
  snd ((add_expense (R := exact_units) "2026-11-02" "Food" 20 "bread" ;;;
        add_expense (R := exact_units) "2026-11-03" "Rent" 30 "garage" ;;;
        add_expense (R := exact_units) "2026-11-03" "Food" 10 "gum")%py
         (fresh_world exact_units)).

(** A budget of [b] and a single expense [spent] made today. *)
Definition budget_world (b spent : float) : @world binary64 :=
  snd ((set_monthly_budget (R := binary64) b ;;;
        add_expense (R := binary64) "2026-11-03" "Food" spent "dinner")%py
         (fresh_world binary64)).

(** The backend cannot open the database file for the next call. *)
Definition unable_to_open : exn :=
  Sqlite3Error OperationalError "unable to open database file".

Definition failing_world (R : Real) : world :=
  set_faults [Some unable_to_open] (fresh_world R).

(* ================================================================== *)
(** * Vocabulary of the ledger as a whole                              *)
(* ================================================================== *)

(** [x] may stand before [y] in the output of a sort by [before]: [y] is
    not required strictly before [x]. *)
Definition in_order {A : Type} (before : A -> A -> bool) (x y : A) : Prop :=
  before y x = false.

Section Ledger.
Context {R : Real}.

(** What the six optional arguments of [get_expenses] ask of an expense:
    a text filter that is [None] or empty asks nothing, an amount bound
    asks whenever it is given. *)
Definition wanted (start_date end_date category : option string)
           (min_amount max_amount : option real) (keyword : option string)
           (e : expense) : Prop :=
  (forall s, start_date = Some s -> s <> "" -> text_le s (e_date e) = true) /\
  (forall s, end_date = Some s -> s <> "" -> text_le (e_date e) s = true) /\
  (forall c, category = Some c -> c <> "" -> e_category e = c) /\
  (forall a, min_amount = Some a -> rleb a (e_amount e) = true) /\
  (forall a, max_amount = Some a -> rleb (e_amount e) a = true) /\
  (forall k, keyword = Some k -> k <> "" ->
             sql_like (e_description e) ("%" ++ k ++ "%") = true).

(** [ORDER BY date DESC]: the row that must come first has the later date. *)
Definition newest_first (y x : expense) : bool :=
  text_lt (e_date x) (e_date y).

(** The same text up to the case of ASCII letters. *)
Definition same_letters (a b : string) : Prop :=
  map ascii_upper (list_ascii_of_string a)
  = map ascii_upper (list_ascii_of_string b).

(** [a] is dated no earlier than [b]. *)
Definition not_older (a b : expense) : Prop :=
  text_le (e_date b) (e_date a) = true.

Definition dated (d : string) (e : expense) : bool := String.eqb (e_date e) d.

(** [e] belongs to category [c]. *)
Definition in_category (c : string) (e : expense) : bool :=
  String.eqb (e_category e) c.

(** [INSERT OR IGNORE INTO categories (name) VALUES (n)] on the store. *)
Definition seed_category (now : string) (s : store) (n : string) : store :=
  if has_name n (categories s) then s else insert_category now n s.

(** The store after the seeding loop of [init_database]. *)
Definition seeded (now : string) (s : store) : store :=
  fold_left (seed_category now) default_categories s.

(** The database evolves by statements of the program only. *)
Inductive steps (s : store) : store -> Prop :=
| steps_refl : steps s s
| steps_next s1 s2 now q rows :
    steps s s1 -> sqlite_execute now s1 q = inr (rows, s2) -> steps s s2.

(** Running [m] moves the database by statements of the program. *)
Definition evolving {A : Type} (m : py A) : Prop :=
  forall w, steps (db w) (db (snd (m w))).

(** Running [m] leaves the database as it is. *)
Definition reading {A : Type} (m : py A) : Prop :=
  forall w, db (snd (m w)) = db w.

(** What a call into [sqlite3] can do to the world: use up failures. *)
Definition quiet (w w' : world) : Prop :=
  exists fs, suffix fs (faults w) /\ w' = set_faults fs w.

(** The keys of the three tables are what the schema says: row ids and
    category names are unique, the budget table has at most its row 1. *)
Definition store_wf (s : store) : Prop :=
  NoDup (map e_id (expenses s)) /\
  NoDup (category_names s) /\
  NoDup (map c_id (categories s)) /\
  budget_ok s.

(** Nothing recorded in [s] is missing or changed in [s']. *)
Definition extends (s s' : store) : Prop :=
  (exists later, expenses s' = (expenses s ++ later)%list) /\
  (exists later, categories s' = (categories s ++ later)%list) /\
  (List.length (budget s) <= List.length (budget s'))%nat.

(** The calls a client of the three managers can make. *)
Inductive request : Type :=
| Init
| AddExpense (date category : string) (amount : real) (description : string)
| GetExpenses (start_date end_date category : option string)
              (min_amount max_amount : option real) (keyword : option string)
| Summary (period : string)
| ListCategories
| AddCategory (name : string)
| SetBudget (amount : real)
| GetBudget
| BudgetStatus.

Definition serve (r : request) : py unit :=
  match r with
  | Init => init_database
  | AddExpense d c a descr => add_expense d c a descr ;;; ret tt
  | GetExpenses sd ed cat mn mx kw =>
      get_expenses sd ed cat mn mx kw ;;; ret tt
  | Summary p => get_expense_summary p ;;; ret tt
  | ListCategories => get_categories ;;; ret tt
  | AddCategory n => add_category n ;;; ret tt
  | SetBudget a => set_monthly_budget a ;;; ret tt
  | GetBudget => get_monthly_budget ;;; ret tt
  | BudgetStatus => get_budget_status ;;; ret tt
  end.

(** A session: the calls are made one after the other, each on the world
    the one before left, whatever it returned or raised. *)
Fixpoint session (rs : list request) (w : world) : world :=
  match rs with
  | [] => w
  | r :: rs' => session rs' (snd (serve r w))
  end.

(** The pairs of periods of which the first window lies inside the
    second. *)
Definition narrower (p q : string) : Prop :=
  (p = "daily" /\ (q = "weekly" \/ q = "monthly" \/ q = "yearly")) \/
  (p = "monthly" /\ q = "yearly").

End Ledger.

(** ** More concrete ledgers *)

(** A new database file, before the program has ever started. *)
Definition blank_world (R : Real) : world :=
  mkworld empty_store [] [] demo_today demo_now.

(** The three expenses in cents, and a monthly budget of 100. *)
Definition cents_budget_world : @world exact_units :=
  snd (set_monthly_budget (R := exact_units) 100 cents_world).

(** The second of the three expenses as the ledger holds it. *)
Definition garage : @expense exact_units :=
  mkexpense (R := exact_units) 2 "2026-11-03" "Rent" 30 "garage" demo_now.

(** A client at work: a restart, a category added twice, an expense that
    no check looks at, a budget, and some reading. *)
Definition demo_session : list (@request exact_units) :=
  [Init; AddCategory "Pets"; AddCategory "Pets";
   AddExpense (R := exact_units) "someday" "Pets" (-5) "vet";
   SetBudget (R := exact_units) 0; Summary "weekly";
   GetExpenses None None None None None None; BudgetStatus].

(* ================================================================== *)
(** * Examples                                                         *)
(* ================================================================== *)

Example strftime_ex : strftime (mkdate 2026 11 3) = "2026-11-03".
Proof. reflexivity. Qed.

Example weekday_ex :
  weekday (mkdate 2026 11 3) = 1 /\
  sub_days (mkdate 2026 11 3) 1 = Some (mkdate 2026 11 2) /\
  _ord2ymd (_ymd2ord 2024 2 29) = mkdate 2024 2 29 /\
  _ord2ymd (_ymd2ord 2023 12 31) = mkdate 2023 12 31 /\
  _ymd2ord 9999 12 31 = _MAXORDINAL.
Proof. repeat split; reflexivity. Qed.

Example sql_like_ex :
  sql_like "Lunch at cafe" "%CAFE%" = true /\
  sql_like "Lunch" "%cafe%" = false /\
  sql_like "abc" "%a_c%" = true.
Proof. repeat split; reflexivity. Qed.

(* ================================================================== *)
(** * The arithmetic instances                                         *)
(* ================================================================== *)

Lemma binary64_r0 : @r0 binary64 = 0%float.
Proof. reflexivity. Qed.

Lemma binary64_r100 : @r100 binary64 = 100%float.
Proof. reflexivity. Qed.

Lemma binary64_order : RealOrder binary64.
Proof.
  split; intros a; rewrite binary64_r0; cbn [rltb rleb reqb binary64];
    rewrite ?ltb_spec, ?leb_spec, ?eqb_spec;
    change (Prim2SF 0) with (S754_zero false);
    destruct (Prim2SF a) as [s|s| |s m e]; try destruct s;
    cbn; try reflexivity; try discriminate;
    intros _; unfold SFeqb, SFcompare;
    rewrite ?Z.compare_refl, ?Pos.compare_refl; reflexivity.
Qed.

Lemma exact_units_order : RealOrder exact_units.
Proof.
  split; intros a; cbn; unfold r0; cbn; lia.
Qed.

Lemma exact_units_exact : RealExact exact_units.
Proof.
  split; cbn; unfold r0; cbn; intros; lia.
Qed.

(* ================================================================== *)
(** * The calendar                                                     *)
(* ================================================================== *)

Lemma all_below_spec p k :
  all_below p k = true -> forall n, 0 <= n < Z.of_nat k -> p n = true.
Proof.
  induction k as [|k IH]; simpl; intros H n Hn; [lia|].
  destruct (p (Z.of_nat k)) eqn:E; [|discriminate].
  destruct (Z.eq_dec n (Z.of_nat k)) as [->|]; [assumption|].
  apply IH; [assumption|lia].
Qed.

Lemma month_day_spec (leap : bool) n :
  0 <= n < (if leap then 366 else 365) -> month_day_ok leap n = true.
Proof.
  intros Hn.
  destruct leap.
  - apply (all_below_spec (month_day_ok true) 366); [vm_compute; reflexivity|lia].
  - apply (all_below_spec (month_day_ok false) 365); [vm_compute; reflexivity|lia].
Qed.

Ltac bool_cases :=
  repeat match goal with
  | |- context [?a =? ?b] => destruct (Z.eqb_spec a b)
  | |- context [?a <? ?b] => destruct (Z.ltb_spec a b)
  | |- context [?a <=? ?b] => destruct (Z.leb_spec a b)
  end; cbn [andb orb negb].

Lemma cycles_of n :
  cycles n ((n - 1) / 146097)
    ((n - 1) mod 146097 / 36524)
    ((n - 1) mod 146097 mod 36524 / 1461)
    ((n - 1) mod 146097 mod 36524 mod 1461 / 365)
    ((n - 1) mod 146097 mod 36524 mod 1461 mod 365).
Proof.
  split; Z.div_mod_to_equations; lia.
Qed.

Lemma days_before_year_cycles q n100 n4 n1 :
  0 <= n100 <= 3 -> 0 <= n4 <= 24 -> 0 <= n1 <= 3 ->
  _days_before_year (q * 400 + 1 + n100 * 100 + n4 * 4 + n1)
  = 146097 * q + 36524 * n100 + 1461 * n4 + 365 * n1.
Proof.
  intros. unfold _days_before_year. Z.div_mod_to_equations. lia.
Qed.

Lemma is_leap_cycles q n100 n4 n1 :
  0 <= n100 <= 3 -> 0 <= n4 <= 24 -> 0 <= n1 <= 3 ->
  _is_leap (q * 400 + 1 + n100 * 100 + n4 * 4 + n1)
  = (n1 =? 3) && (negb (n4 =? 24) || (n100 =? 3)).
Proof.
  intros. unfold _is_leap. bool_cases; try reflexivity;
    exfalso; Z.div_mod_to_equations; lia.
Qed.

Lemma ord2ymd_month_day n :
  let n0 := n - 1 in
  let r := n0 mod 146097 in
  let n100 := r / 36524 in
  let n4 := r mod 36524 / 1461 in
  let n1 := r mod 36524 mod 1461 / 365 in
  let r3 := r mod 36524 mod 1461 mod 365 in
  let y := n0 / 146097 * 400 + 1 + n100 * 100 + n4 * 4 + n1 in
  _ord2ymd n =
  if (n1 =? 4) || (n100 =? 4) then mkdate (y - 1) 12 31
  else
    let md := month_day r3 ((n1 =? 3) && (negb (n4 =? 24) || (n100 =? 3))) in
    mkdate y (fst md) (snd md).
Proof.
  cbv zeta. unfold _ord2ymd, month_day, _DI400Y, _DI100Y, _DI4Y. cbv zeta.
  destruct (_ || _); [reflexivity|].
  destruct (_ <? _); reflexivity.
Qed.

Lemma ord2ymd_spec n :
  1 <= n ->
  let d := _ord2ymd n in
  toordinal d = n /\ 1 <= year d /\ 1 <= month d <= 12 /\
  1 <= day d <= _days_in_month (year d) (month d).
Proof.
  intros Hn. cbv zeta. rewrite ord2ymd_month_day. cbv zeta.
  pose proof (cycles_of n) as C.
  set (q := (n - 1) / 146097) in *.
  set (n100 := (n - 1) mod 146097 / 36524) in *.
  set (n4 := (n - 1) mod 146097 mod 36524 / 1461) in *.
  set (n1 := (n - 1) mod 146097 mod 36524 mod 1461 / 365) in *.
  set (r3 := (n - 1) mod 146097 mod 36524 mod 1461 mod 365) in *.
  clearbody q n100 n4 n1 r3. destruct C.
  assert (Hq : 0 <= q) by lia.
  destruct ((n1 =? 4) || (n100 =? 4)) eqn:E.
  - unfold toordinal, _ymd2ord, _days_before_month, _days_in_month,
      _days_before_year, _is_leap. cbn [year month day].
    apply orb_true_iff in E. rewrite !Z.eqb_eq in E.
    bool_cases; cbn [_DAYS_BEFORE_MONTH _DAYS_IN_MONTH];
      Z.div_mod_to_equations; lia.
  - apply orb_false_iff in E. rewrite !Z.eqb_neq in E.
    assert (L := is_leap_cycles q n100 n4 n1 ltac:(lia) ltac:(lia) ltac:(lia)).
    assert (Y := days_before_year_cycles q n100 n4 n1
                   ltac:(lia) ltac:(lia) ltac:(lia)).
    set (leap := (n1 =? 3) && (negb (n4 =? 24) || (n100 =? 3))) in *.
    clearbody leap.
    assert (M : month_day_ok leap r3 = true)
      by (apply month_day_spec; destruct leap; lia).
    unfold month_day_ok in M. destruct (month_day r3 leap) as [m dd].
    rewrite !andb_true_iff in M.
    destruct M as [[[[M1 M2] M3] M4] M5].
    apply Z.leb_le in M1, M2, M3, M4. apply Z.eqb_eq in M5.
    unfold toordinal, _ymd2ord, _days_before_month, _days_in_month.
    cbn [year month day fst snd]. rewrite L, Y. lia.
Qed.

(** ** Ordinals of valid dates *)

Lemma days_before_year_succ y :
  _days_before_year (y + 1)
  = _days_before_year y + 365 + (if _is_leap y then 1 else 0).
Proof.
  unfold _days_before_year, _is_leap. bool_cases;
    Z.div_mod_to_equations; lia.
Qed.

Lemma days_before_year_mono y y' :
  y <= y' -> _days_before_year y <= _days_before_year y'.
Proof.
  intros H. unfold _days_before_year. Z.div_mod_to_equations. lia.
Qed.

Lemma month_cases m :
  1 <= m <= 12 ->
  m = 1 \/ m = 2 \/ m = 3 \/ m = 4 \/ m = 5 \/ m = 6 \/
  m = 7 \/ m = 8 \/ m = 9 \/ m = 10 \/ m = 11 \/ m = 12.
Proof. lia. Qed.

Ltac each_month m H :=
  let C := fresh in
  pose proof (month_cases m H) as C;
  repeat (destruct C as [C|C]; [subst m|]); [..|subst m].

Ltac month_simpl :=
  cbn [_DAYS_BEFORE_MONTH _DAYS_IN_MONTH Z.ltb Z.eqb Z.compare Pos.compare
       Pos.compare_cont Pos.eqb andb] in *.

Lemma days_before_month_succ y m :
  1 <= m <= 11 ->
  _days_before_month y (m + 1) = _days_before_month y m + _days_in_month y m.
Proof.
  intros H. unfold _days_before_month, _days_in_month.
  assert (H' : 1 <= m <= 12) by lia.
  each_month m H'; try lia; destruct (_is_leap y); reflexivity.
Qed.

Lemma days_in_month_pos y m : 1 <= m <= 12 -> 28 <= _days_in_month y m <= 31.
Proof.
  intros H. unfold _days_in_month.
  each_month m H; destruct (_is_leap y); month_simpl; lia.
Qed.

Lemma days_before_month_mono y m m' :
  1 <= m -> m <= m' -> m' <= 12 ->
  _days_before_month y m <= _days_before_month y m'.
Proof.
  intros H1 H2. revert m' H2.
  apply (Z.le_ind (fun k => k <= 12 ->
           _days_before_month y m <= _days_before_month y k)).
  - intros a b ->. tauto.
  - lia.
  - intros k Hk IH Hk'. unfold Z.succ.
    rewrite days_before_month_succ by lia.
    pose proof (days_in_month_pos y k ltac:(lia)). lia.
Qed.

Lemma day_of_year_bound y m d :
  1 <= m <= 12 -> 1 <= d <= _days_in_month y m ->
  1 <= _days_before_month y m + d <= 365 + (if _is_leap y then 1 else 0).
Proof.
  intros Hm Hd. unfold _days_before_month, _days_in_month in *.
  each_month m Hm; destruct (_is_leap y); month_simpl; lia.
Qed.

Lemma days_before_year_1 : _days_before_year 1 = 0.
Proof. reflexivity. Qed.

Lemma days_before_year_10000 : _days_before_year 10000 = _MAXORDINAL.
Proof. reflexivity. Qed.

Lemma toordinal_bounds d :
  valid d -> 1 <= toordinal d <= _MAXORDINAL.
Proof.
  intros (Hy & Hm & Hd). unfold MINYEAR, MAXYEAR in Hy.
  pose proof (day_of_year_bound _ _ _ Hm Hd) as B.
  pose proof (days_before_year_succ (year d)) as S.
  pose proof (days_before_year_mono 1 (year d) ltac:(lia)) as L.
  pose proof (days_before_year_mono (year d + 1) 10000 ltac:(lia)) as U.
  rewrite days_before_year_1 in L. rewrite days_before_year_10000 in U.
  unfold toordinal, _ymd2ord. lia.
Qed.

Lemma fromordinal_valid n d :
  fromordinal n = Some d -> valid d /\ toordinal d = n.
Proof.
  unfold fromordinal. destruct (_ && _) eqn:E; [|discriminate].
  intros [= <-]. apply andb_true_iff in E. destruct E as [E1 E2].
  apply Z.leb_le in E1, E2.
  destruct (ord2ymd_spec n E1) as (T & Y & M & D).
  generalize dependent (_ord2ymd n). intros d T Y M D.
  split; [|assumption]. repeat split; try tauto; try lia.
  unfold MAXYEAR. destruct (Z_le_gt_dec (year d) 9999); [lia|].
  exfalso.
  pose proof (days_before_year_mono 10000 (year d) ltac:(lia)) as U.
  rewrite days_before_year_10000 in U.
  pose proof (day_of_year_bound _ _ _ M D).
  unfold toordinal, _ymd2ord in T. lia.
Qed.

Lemma toordinal_compare a b :
  valid a -> valid b ->
  (toordinal a ?= toordinal b) = compare_date a b.
Proof.
  intros (Hya & Hma & Hda) (Hyb & Hmb & Hdb). unfold compare_date.
  pose proof (day_of_year_bound _ _ _ Hma Hda) as Ba.
  pose proof (day_of_year_bound _ _ _ Hmb Hdb) as Bb.
  unfold toordinal, _ymd2ord.
  destruct (Z.compare_spec (year a) (year b)) as [E|L|L].
  - rewrite E in *.
    destruct (Z.compare_spec (month a) (month b)) as [E'|L'|L'].
    + rewrite E'. destruct (Z.compare_spec (day a) (day b));
        [apply Z.compare_eq_iff|apply Z.compare_lt_iff|apply Z.compare_gt_iff];
        lia.
    + apply Z.compare_lt_iff.
      pose proof (days_before_month_succ (year b) (month a) ltac:(lia)).
      pose proof (days_before_month_mono (year b) (month a + 1) (month b)
                    ltac:(lia) ltac:(lia) ltac:(lia)). lia.
    + apply Z.compare_gt_iff.
      pose proof (days_before_month_succ (year b) (month b) ltac:(lia)).
      pose proof (days_before_month_mono (year b) (month b + 1) (month a)
                    ltac:(lia) ltac:(lia) ltac:(lia)). lia.
  - apply Z.compare_lt_iff.
    pose proof (days_before_year_succ (year a)).
    pose proof (days_before_year_mono (year a + 1) (year b) ltac:(lia)). lia.
  - apply Z.compare_gt_iff.
    pose proof (days_before_year_succ (year b)).
    pose proof (days_before_year_mono (year b + 1) (year a) ltac:(lia)). lia.
Qed.

(** The start of the week: [today - timedelta(days=today.weekday())]. *)
Lemma week_start today :
  valid today ->
  exists monday,
    sub_days today (weekday today) = Some monday /\ valid monday /\
    weekday monday = 0 /\
    toordinal monday <= toordinal today < toordinal monday + 7.
Proof.
  intros V. pose proof (toordinal_bounds today V) as B.
  unfold sub_days, weekday.
  set (o := toordinal today) in *.
  assert (W : 0 <= (o + 6) mod 7 < 7) by (apply Z.mod_pos_bound; lia).
  assert (K : o + 6 = 7 * ((o + 6) / 7) + (o + 6) mod 7)
    by (apply Z.div_mod; lia).
  destruct (fromordinal (o - (o + 6) mod 7)) as [monday|] eqn:F.
  - exists monday. destruct (fromordinal_valid _ _ F) as [Vm Tm].
    split; [reflexivity|]. split; [assumption|]. rewrite Tm. split; [|lia].
    replace (o - (o + 6) mod 7 + 6) with ((o + 6) / 7 * 7) by lia.
    apply Z.mod_mul. lia.
  - exfalso. unfold fromordinal in F.
    destruct (_ && _) eqn:E; [discriminate|].
    apply andb_false_iff in E. rewrite !Z.leb_gt in E. lia.
Qed.

(** ** ISO 8601 text *)

Lemma append_assoc (a b c : string) : (a ++ b) ++ c = a ++ (b ++ c).
Proof. induction a as [|x a IH]; cbn; [reflexivity|now rewrite IH]. Qed.

Lemma append_nil_r (a : string) : a ++ "" = a.
Proof. induction a as [|x a IH]; cbn; [reflexivity|now rewrite IH]. Qed.

Lemma digit_compare a b :
  0 <= a <= 9 -> 0 <= b <= 9 ->
  Ascii.compare (digit a) (digit b) = (a ?= b).
Proof.
  intros Ha Hb. unfold digit, Ascii.compare.
  rewrite !Z.mod_small by lia.
  rewrite !N_ascii_embedding by lia.
  rewrite <- N2Z.inj_compare, !N2Z.inj_add, !Z2N.id by lia.
  apply Z.add_compare_mono_l.
Qed.

Lemma digit_mod n : digit (n mod 10) = digit n.
Proof. unfold digit. rewrite Z.mod_mod by lia. reflexivity. Qed.

Lemma digit_ext a b : a mod 10 = b mod 10 -> digit a = digit b.
Proof. unfold digit. intros ->. reflexivity. Qed.

(** Comparing two-digit fields. *)
Lemma compare_pad2 m m' s s' :
  0 <= m <= 99 -> 0 <= m' <= 99 ->
  String.compare (pad2 m ++ s) (pad2 m' ++ s')
  = match m ?= m' with Eq => String.compare s s' | c => c end.
Proof.
  intros Hm Hm'. unfold pad2. cbn [append String.compare].
  rewrite <- (digit_mod m), <- (digit_mod m').
  rewrite !digit_compare by (Z.div_mod_to_equations; lia).
  destruct (Z.compare_spec (m / 10) (m' / 10)) as [E|L|L];
  destruct (Z.compare_spec (m mod 10) (m' mod 10)) as [E'|L'|L'];
  destruct (Z.compare_spec m m') as [E2|L2|L2];
  try reflexivity; exfalso; Z.div_mod_to_equations; lia.
Qed.

Lemma pad4_pad2 y : pad4 y = pad2 (y / 100) ++ pad2 (y mod 100).
Proof.
  unfold pad4, pad2. cbn [append].
  rewrite (digit_ext (y / 1000) (y / 100 / 10))
    by (Z.div_mod_to_equations; lia).
  rewrite (digit_ext (y / 10) (y mod 100 / 10))
    by (Z.div_mod_to_equations; lia).
  rewrite (digit_ext y (y mod 100)) by (Z.div_mod_to_equations; lia).
  reflexivity.
Qed.

Lemma compare_pad4 y y' s s' :
  0 <= y <= 9999 -> 0 <= y' <= 9999 ->
  String.compare (pad4 y ++ s) (pad4 y' ++ s')
  = match y ?= y' with Eq => String.compare s s' | c => c end.
Proof.
  intros Hy Hy'. rewrite !pad4_pad2.
  rewrite !append_assoc.
  rewrite compare_pad2 by (Z.div_mod_to_equations; lia).
  rewrite compare_pad2 by (Z.div_mod_to_equations; lia).
  destruct (Z.compare_spec (y / 100) (y' / 100)) as [E|L|L];
  destruct (Z.compare_spec (y mod 100) (y' mod 100)) as [E'|L'|L'];
  destruct (Z.compare_spec y y') as [E2|L2|L2];
  try reflexivity; exfalso; Z.div_mod_to_equations; lia.
Qed.

Lemma days_in_month_le_31 y m : _days_in_month y m <= 31.
Proof.
  unfold _days_in_month. destruct (_ && _); [lia|].
  unfold _DAYS_IN_MONTH.
  destruct m as [|p|p]; try lia.
  do 4 (try destruct p as [p|p|]; try lia).
Qed.

(** ISO 8601 dates sort as text the way they sort as dates. *)
Lemma strftime_compare a b :
  valid a -> valid b ->
  String.compare (strftime a) (strftime b) = compare_date a b.
Proof.
  intros (Hya & Hma & Hda) (Hyb & Hmb & Hdb).
  unfold MINYEAR, MAXYEAR in *.
  pose proof (days_in_month_le_31 (year a) (month a)).
  pose proof (days_in_month_le_31 (year b) (month b)).
  unfold strftime, compare_date.
  rewrite compare_pad4 by lia.
  cbn [append]. cbn [String.compare].
  change (Ascii.compare "-" "-") with Eq. cbv iota.
  rewrite compare_pad2 by lia.
  cbn [append String.compare].
  change (Ascii.compare "-" "-") with Eq. cbv iota.
  rewrite <- (append_nil_r (pad2 (day a))) at 1.
  rewrite <- (append_nil_r (pad2 (day b))) at 1.
  rewrite compare_pad2 by lia.
  cbn [String.compare].
  destruct (day a ?= day b); reflexivity.
Qed.

(* ================================================================== *)
(** * The program                                                      *)
(* ================================================================== *)

Section Program_facts.
Context {R : Real}.

Lemma sqlite_execute_error now s q e :
  sqlite_execute now s q = inl e -> is_sqlite3_Error e = true.
Proof.
  destruct q; cbn; repeat match goal with
    | |- context [if ?b then _ else _] => destruct b
    end; intros [= <-] || discriminate; reflexivity.
Qed.

Lemma fault_point_nil w : faults w = [] -> fault_point w = (Ret tt, w).
Proof. unfold fault_point. now intros ->. Qed.

Ltac run_py :=
  cbv beta delta [execute_query execute_update query_try update_try
    try_except bind sqlite3_connect cursor_execute conn_commit
    except_sqlite3_Error print ret raise].

Lemma execute_query_ok q w rows s' :
  faults w = [] ->
  sqlite_execute (utc_now w) (db w) q = inr (rows, s') ->
  execute_query q w = (Ret rows, w).
Proof.
  intros F E. run_py. rewrite (fault_point_nil w F).
  rewrite (fault_point_nil w F), E. reflexivity.
Qed.

Lemma execute_update_ok q w rows s' :
  faults w = [] ->
  sqlite_execute (utc_now w) (db w) q = inr (rows, s') ->
  execute_update q w = (Ret true, set_db s' w).
Proof.
  intros F E. run_py. rewrite (fault_point_nil w F).
  rewrite (fault_point_nil w F), E. cbn [snd].
  rewrite (fault_point_nil w F). reflexivity.
Qed.

Lemma execute_update_rejected q w e :
  faults w = [] ->
  sqlite_execute (utc_now w) (db w) q = inl e ->
  execute_update q w
  = (Ret false, write_line ("Database update error: " ++ str_exn e) w).
Proof.
  intros F E. run_py. rewrite (fault_point_nil w F).
  rewrite (fault_point_nil w F), E.
  rewrite (sqlite_execute_error _ _ _ _ E). reflexivity.
Qed.

(** ** Sorting and sums *)

Lemma insert_by_perm {A} (before : A -> A -> bool) x l :
  Permutation (insert_by before x l) (x :: l).
Proof.
  induction l as [|y l IH]; cbn; [reflexivity|].
  destruct (before y x); [|reflexivity].
  rewrite IH. apply perm_swap.
Qed.

Lemma sort_by_perm {A} (before : A -> A -> bool) l :
  Permutation (sort_by before l) l.
Proof.
  induction l as [|y l IH]; cbn; [reflexivity|].
  rewrite insert_by_perm. now rewrite IH.
Qed.

Lemma filter_all {A} (f : A -> bool) l :
  (forall x, In x l -> f x = true) -> filter f l = l.
Proof.
  induction l as [|y l IH]; cbn; intros H; [reflexivity|].
  rewrite (H y) by now left. f_equal. apply IH. intros; apply H; now right.
Qed.

Lemma max_id_ge {T} (id : T -> Z) l x : In x l -> id x <= max_id id l.
Proof.
  induction l as [|y l IH]; [contradiction|].
  change (max_id id (y :: l)) with (Z.max (id y) (max_id id l)).
  intros [->|H]; [lia|]. specialize (IH H). lia.
Qed.

(** C1.  For every valid expense (date, category, amount > 0,
    description), [add_expense] followed by [get_expenses] with no filter
    returns the written row exactly once, every field as it was written:
    the rows after the call are the rows before it plus one row,
    [written], which holds the four fields unchanged under a row id that
    no earlier row has.  On an empty ledger that single row is the whole
    result. *)
Theorem record_then_query (RO : RealOrder R) w date category amount descr :
  faults w = [] ->
  rltb r0 amount = true ->
  exists id w1 rows0 rows1,
    add_expense date category amount descr w = (Ret true, w1) /\
    all_expenses w = (Ret rows0, w) /\
    all_expenses w1 = (Ret rows1, w1) /\
    let written :=
      [VInt id; VStr date; VStr category; VFloat amount; VStr descr] in
    ~ In written rows0 /\
    Permutation rows1 (written :: rows0) /\
    (expenses (db w) = [] -> rows1 = [written]).
Proof.
  intros F P.
  assert (N : is_nan amount = false)
    by (unfold is_nan; now rewrite (pos_not_nan _ P)).
  set (id := next_id e_id (expenses_seq (db w)) (expenses (db w))).
  set (new := mkexpense id date category amount descr (utc_now w)).
  set (s1 := mkstore (expenses (db w) ++ [new]) id (budget (db w))
                     (categories (db w)) (categories_seq (db w))).
  set (by_date := fun y x : expense => text_lt (e_date x) (e_date y)).
  exists id, (set_db s1 w),
    (map expense_tuple (sort_by by_date (expenses (db w)))),
    (map expense_tuple (sort_by by_date (expenses (db w) ++ [new]))).
  split; [|split; [|split]].
  - unfold add_expense. apply execute_update_ok with (rows := []); [assumption|].
    cbn. rewrite N. reflexivity.
  - unfold all_expenses, get_expenses. cbn [given opt_clause app].
    eapply execute_query_ok; [assumption|]. cbn.
    rewrite filter_all by reflexivity. reflexivity.
  - unfold all_expenses, get_expenses. cbn [given opt_clause app].
    eapply execute_query_ok; [assumption|]. cbn.
    rewrite filter_all by reflexivity. reflexivity.
  - cbv zeta. split; [|split].
    + intros H. apply in_map_iff in H. destruct H as (e & He & Hin).
      apply (Permutation_in _ (sort_by_perm _ _)) in Hin.
      apply (max_id_ge e_id) in Hin.
      injection He as He _. unfold id, next_id in He. lia.
    + change [VInt id; VStr date; VStr category; VFloat amount; VStr descr]
        with (expense_tuple new).
      rewrite <- map_cons. apply Permutation_map.
      rewrite !sort_by_perm. rewrite Permutation_app_comm. reflexivity.
    + intros ->. reflexivity.
Qed.

(** ** Categories *)

Lemma has_name_In n cs : has_name n cs = true <-> In n (map c_name cs).
Proof.
  unfold has_name. rewrite existsb_exists, in_map_iff.
  split; intros (c & H1 & H2); exists c.
  - apply String.eqb_eq in H2. tauto.
  - split; [tauto|]. apply String.eqb_eq. tauto.
Qed.

Lemma first_columns_names (names : list string) w :
  first_columns (map (fun n => [VStr n]) names) w = (Ret (map VStr names), w).
Proof.
  induction names as [|n names IH]; [reflexivity|].
  cbn [map first_columns]. unfold bind, getitem. cbn.
  unfold bind in IH. rewrite IH. reflexivity.
Qed.

Lemma get_categories_ok w :
  faults w = [] ->
  get_categories w
  = (Ret (map VStr (map c_name
        (sort_by (fun y x => text_lt (c_name y) (c_name x))
                 (categories (db w))))), w).
Proof.
  intros F. unfold get_categories, bind.
  erewrite execute_query_ok by (try eassumption; reflexivity).
  rewrite <- (map_map c_name (fun n => [VStr n])).
  apply first_columns_names.
Qed.

(** C6.  For a category name already in the registry, [add_category]
    returns false: the store's uniqueness constraint rejects the insert
    (the program does not look the name up first), and afterwards
    [get_categories] lists that name exactly once. *)
Theorem duplicate_category_rejected w name :
  faults w = [] ->
  NoDup (category_names (db w)) ->
  In name (category_names (db w)) ->
  sqlite_execute (utc_now w) (db w) (InsertCategory name)
  = inl (Sqlite3Error IntegrityError
           "UNIQUE constraint failed: categories.name") /\
  exists w' names,
    add_category name w = (Ret false, w') /\
    db w' = db w /\
    get_categories w' = (Ret (map VStr names), w') /\
    count_occ string_dec names name = 1%nat.
Proof.
  intros F U I.
  assert (E : sqlite_execute (utc_now w) (db w) (InsertCategory name)
              = inl (Sqlite3Error IntegrityError
                       "UNIQUE constraint failed: categories.name")).
  { cbn. apply has_name_In in I. rewrite I. reflexivity. }
  split; [exact E|].
  eexists. eexists. split; [|split; [|split]].
  - unfold add_category. apply execute_update_rejected; eassumption.
  - reflexivity.
  - apply get_categories_ok. assumption.
  - cbn [db write_line].
    apply NoDup_count_occ'.
    + eapply Permutation_NoDup; [|exact U].
      apply Permutation_map. symmetry. apply sort_by_perm.
    + eapply Permutation_in; [|exact I].
      apply Permutation_map. symmetry. apply sort_by_perm.
Qed.

(** C7, as the code has it.  Adding a name that is already in the
    registry changes nothing in the store and raises nothing, but it is
    reported as a failure: [add_category] returns false and the error of
    the store is printed. *)
Theorem duplicate_category_unchanged_but_refused w name :
  faults w = [] ->
  In name (category_names (db w)) ->
  add_category name w
  = (Ret false,
     write_line
       "Database update error: UNIQUE constraint failed: categories.name" w).
Proof.
  intros F I. unfold add_category.
  rewrite execute_update_rejected
    with (e := Sqlite3Error IntegrityError
                 "UNIQUE constraint failed: categories.name");
    [reflexivity|assumption|].
  cbn. apply has_name_In in I. rewrite I. reflexivity.
Qed.

Lemma update_try_raise q w e w' :
  update_try q w = (Raise e, w') -> db w' = db w.
Proof.
  run_py. unfold fault_point.
  destruct w as [s fs out td now]. cbn.
  destruct fs as [|[e1|] fs]; cbn; try (intros [= <- <-]; reflexivity).
  - destruct (sqlite_execute now s q) as [e1|[rows s1]]; cbn;
      intros [= <- <-] || discriminate; reflexivity.
  - destruct fs as [|[e2|] fs]; cbn; try (intros [= <- <-]; reflexivity).
    + destruct (sqlite_execute now s q) as [e1|[rows s1]]; cbn;
        intros [= <- <-] || discriminate; reflexivity.
    + destruct (sqlite_execute now s q) as [e1|[rows s1]]; cbn;
        try (intros [= <- <-]; reflexivity).
      destruct fs as [|[e3|] fs]; cbn;
        intros [= <- <-] || discriminate; reflexivity.
Qed.

(** C8.  On any backend error (any [sqlite3.Error] raised inside the
    [try] block), [execute_query] prints the error and returns the empty
    list, [execute_update] prints it and returns false and leaves the
    database as it was; the error does not reach the caller. *)
Theorem backend_errors_fail_soft q w e w' :
  is_sqlite3_Error e = true ->
  (query_try q w = (Raise e, w') ->
   execute_query q w
   = (Ret [], write_line ("Database query error: " ++ str_exn e) w')) /\
  (update_try q w = (Raise e, w') ->
   execute_update q w
   = (Ret false, write_line ("Database update error: " ++ str_exn e) w') /\
   db w' = db w).
Proof.
  intros S. split.
  - intros H. unfold execute_query, try_except. rewrite H.
    unfold except_sqlite3_Error. rewrite S. reflexivity.
  - intros H. split; [|eapply update_try_raise; eassumption].
    unfold execute_update, try_except. rewrite H.
    unfold except_sqlite3_Error. rewrite S. reflexivity.
Qed.

(** ** What a wrapped call can do, whatever the backend does *)

Lemma suffix_refl fs : suffix fs fs.
Proof. now exists []. Qed.

Lemma suffix_cons f fs all : suffix fs all -> suffix fs (f :: all).
Proof. intros [u ->]. now exists (f :: u). Qed.

Lemma suffix_In f fs all : suffix fs all -> In f fs -> In f all.
Proof. intros [u ->] H. apply in_or_app. now right. Qed.

Create HintDb sfx.
#[local] Hint Resolve suffix_refl suffix_cons : sfx.

Ltac rows_outcome rows :=
  match goal with
  | |- query_outcome ?q ?w _ ?w2 =>
      let fs := eval cbn in (faults w2) in
      refine (qo_rows q w rows _ fs _ _)
  | |- update_outcome ?q ?w _ ?w2 =>
      let fs := eval cbn in (faults w2) in
      let s' := eval cbn in (db w2) in
      refine (uo_done q w rows s' fs _ _)
  end; cbn; eauto 6 with sfx.

Ltac failed_outcome e :=
  match goal with
  | |- query_outcome ?q ?w _ ?w2 =>
      let fs := eval cbn in (faults w2) in apply (qo_failed q w e fs)
  | |- update_outcome ?q ?w _ ?w2 =>
      let fs := eval cbn in (faults w2) in apply (uo_failed q w e fs)
  end; cbn; auto 6 with sfx.

Ltac raised_outcome e :=
  match goal with
  | |- query_outcome ?q ?w _ ?w2 =>
      let fs := eval cbn in (faults w2) in apply (qo_raised q w e fs)
  | |- update_outcome ?q ?w _ ?w2 =>
      let fs := eval cbn in (faults w2) in apply (uo_raised q w e fs)
  end; cbn; auto 6 with sfx.

Ltac caught e :=
  let S := fresh "S" in
  destruct (is_sqlite3_Error e) eqn:S; cbn;
  [ failed_outcome e | raised_outcome e ].

Ltac executed now s q :=
  let E := fresh "E" in
  let S := fresh "S" in
  let e := fresh "e" in
  let rows := fresh "rows" in
  destruct (sqlite_execute now s q) as [e|[rows ?]] eqn:E; cbn;
  [ pose proof (sqlite_execute_error _ _ _ _ E) as S; rewrite S; cbn;
    failed_outcome e
  | ].

Lemma execute_query_outcome q w :
  query_outcome q w (fst (execute_query q w)) (snd (execute_query q w)).
Proof.
  run_py. unfold fault_point. destruct w as [s fs out td now]. cbn.
  destruct fs as [|[e1|] fs]; cbn.
  - executed now s q. rows_outcome rows.
  - caught e1.
  - destruct fs as [|[e2|] fs]; cbn.
    + executed now s q. rows_outcome rows.
    + caught e2.
    + executed now s q. rows_outcome rows.
Qed.

Lemma execute_update_outcome q w :
  update_outcome q w (fst (execute_update q w)) (snd (execute_update q w)).
Proof.
  run_py. unfold fault_point. destruct w as [s fs out td now]. cbn.
  destruct fs as [|[e1|] fs]; cbn.
  - executed now s q. rows_outcome rows.
  - caught e1.
  - destruct fs as [|[e2|] fs]; cbn.
    + executed now s q. rows_outcome rows.
    + caught e2.
    + executed now s q.
      destruct fs as [|[e3|] fs]; cbn.
      * rows_outcome rows.
      * caught e3.
      * rows_outcome rows.
Qed.

Lemma query_outcome_state q w r w' :
  query_outcome q w r w' ->
  db w' = db w /\ today w' = today w /\ utc_now w' = utc_now w /\
  suffix (faults w') (faults w).
Proof. intros []; cbn; auto. Qed.

Lemma update_outcome_state q w r w' :
  update_outcome q w r w' ->
  today w' = today w /\ utc_now w' = utc_now w /\
  suffix (faults w') (faults w) /\
  (db w' = db w \/
   exists rows, sqlite_execute (utc_now w) (db w) q = inr (rows, db w')).
Proof. intros []; cbn; eauto 7. Qed.

Lemma sqlite_faults_suffix w w' :
  suffix (faults w') (faults w) -> sqlite_faults w -> sqlite_faults w'.
Proof. intros S H e I. apply H. eapply suffix_In; eassumption. Qed.

(** With only [sqlite3.Error]s pending, a wrapped call returns. *)
Lemma query_outcome_returns q w r w' :
  sqlite_faults w -> query_outcome q w r w' -> exists rows, r = Ret rows.
Proof.
  intros H []; eauto.
  match goal with
  | S : is_sqlite3_Error ?e = false, I : In (Some ?e) _ |- _ =>
      rewrite (H e I) in S; discriminate
  end.
Qed.

Lemma update_outcome_returns q w r w' :
  sqlite_faults w -> update_outcome q w r w' -> exists b, r = Ret b.
Proof.
  intros H []; eauto.
  match goal with
  | S : is_sqlite3_Error ?e = false, I : In (Some ?e) _ |- _ =>
      rewrite (H e I) in S; discriminate
  end.
Qed.

(** ** The budget table *)

Lemma budget_ok_cases s :
  budget_ok s -> budget s = [] \/ exists a t, budget s = [mkbudget 1 a t].
Proof.
  intros [L I]. destruct (budget s) as [|[i a t] [|b bs]] eqn:E; cbn in L.
  - now left.
  - right. exists a, t. specialize (I (mkbudget i a t) (or_introl eq_refl)).
    cbn in I. now subst i.
  - lia.
Qed.

Lemma budget_ok_execute now s q rows s' :
  sqlite_execute now s q = inr (rows, s') -> budget_ok s -> budget_ok s'.
Proof.
  intros E B. destruct (budget_ok_cases s B) as [Z|(a & t & Z)];
    destruct q; cbn in E; rewrite ?Z in E; cbn in E;
    repeat match type of E with
    | context [if ?b then _ else _] => destruct b
    end; try discriminate; injection E as <- <-; try exact B;
    unfold budget_ok; cbn; rewrite ?Z; cbn;
    (split; [lia|]); intros b [<-|[]] || intros b []; reflexivity.
Qed.

Lemma set_monthly_budget_keeps a w :
  budget_ok (db w) -> budget_ok (db (snd (set_monthly_budget a w))).
Proof.
  intros B. unfold set_monthly_budget, bind.
  pose proof (execute_query_outcome SelectBudgetId w) as Q.
  destruct (execute_query SelectBudgetId w) as [r w1]. cbn [fst snd] in Q.
  apply query_outcome_state in Q. destruct Q as (D & _ & _ & _).
  destruct r as [rows|e]; cbn [snd]; [|now rewrite D].
  assert (K : forall q, budget_ok (db (snd (execute_update q w1)))).
  { intros q. pose proof (execute_update_outcome q w1) as U.
    apply update_outcome_state in U. destruct U as (_ & _ & _ & [U|[x U]]).
    - rewrite U, D. exact B.
    - eapply budget_ok_execute; [exact U|]. rewrite D. exact B. }
  destruct rows; apply K.
Qed.

Lemma set_budgets_keep amounts w :
  budget_ok (db w) -> budget_ok (db (snd (set_budgets amounts w))).
Proof.
  revert w. induction amounts as [|a rest IH]; intros w B; [exact B|].
  cbn [set_budgets]. unfold bind.
  pose proof (set_monthly_budget_keeps a w B) as K.
  destruct (set_monthly_budget a w) as [[b|e] w1]; cbn [snd] in *.
  - apply IH. exact K.
  - exact K.
Qed.

Lemma set_monthly_budget_ok a w :
  faults w = [] -> budget_ok (db w) -> is_nan a = false ->
  set_monthly_budget a w
  = (Ret true, set_db (with_budget [mkbudget 1 a (utc_now w)] (db w)) w).
Proof.
  intros F B N. unfold set_monthly_budget, bind.
  erewrite execute_query_ok by (try eassumption; reflexivity).
  destruct (budget_ok_cases _ B) as [Z|(a0 & t & Z)]; rewrite Z; cbn.
  - erewrite execute_update_ok; [reflexivity|assumption|].
    cbn. rewrite N, Z. reflexivity.
  - erewrite execute_update_ok; [reflexivity|assumption|].
    cbn. rewrite N, Z, andb_false_r. reflexivity.
Qed.

Lemma get_monthly_budget_ok w b t :
  faults w = [] -> budget (db w) = [mkbudget 1 b t] ->
  get_monthly_budget w = (Ret (VFloat b), w).
Proof.
  intros F Z. unfold get_monthly_budget, bind.
  erewrite execute_query_ok by (try eassumption; reflexivity).
  rewrite Z. reflexivity.
Qed.

Lemma get_monthly_budget_unset w :
  faults w = [] -> budget (db w) = [] ->
  get_monthly_budget w = (Ret VNone, w).
Proof.
  intros F Z. unfold get_monthly_budget, bind.
  erewrite execute_query_ok by (try eassumption; reflexivity).
  rewrite Z. reflexivity.
Qed.


(** ** Sums over a date window *)

Lemma total_of_same_number es :
  same_number (total_of es) (rsum (map e_amount es)).
Proof.
  unfold same_number, total_of, nonzero. cbv zeta.
  destruct (reqb (rsum (map e_amount es)) r0); cbn; auto.
Qed.

Lemma sum_cell es :
  (if truthy (sql_sum es) then sql_sum es else VFloat r0)
  = VFloat (total_of es).
Proof.
  unfold total_of, sql_sum. destruct es as [|e es].
  - cbn. destruct (nonzero r0); reflexivity.
  - cbn [truthy]. cbv zeta. destruct (nonzero _); reflexivity.
Qed.

Lemma sum_query_ok win w :
  faults w = [] ->
  execute_query (SelectSumAmount win) w
  = (Ret [[sql_sum (selected win (db w))]], w).
Proof. intros F. eapply execute_query_ok; [assumption|reflexivity]. Qed.


(** C10.  With a stored monthly budget equal to 0, [get_monthly_budget]
    returns that 0 but [get_budget_status] takes the no-budget branch and
    returns [{budget: None, spent: 0, remaining: 0, percentage: 0}], the
    very answer it gives when no budget was ever set, and it does so
    without running the spend query: only the two backend calls of the
    budget query are used. *)
Theorem zero_budget_reads_as_unset w b t :
  budget (db w) = [mkbudget 1 b t] ->
  reqb b r0 = true ->
  (faults w = [] ->
   get_monthly_budget w = (Ret (VFloat b), w) /\
   get_budget_status w = (Ret no_budget, w) /\
   forall w0, faults w0 = [] -> budget (db w0) = [] ->
              get_budget_status w0 = (Ret no_budget, w0)) /\
  (forall fs,
     get_budget_status (set_faults (None :: None :: fs) w)
     = (Ret no_budget, set_faults fs w)).
Proof.
  intros Z E. split.
  - intros F. split; [|split].
    + apply (get_monthly_budget_ok w b t F Z).
    + unfold get_budget_status, bind.
      rewrite (get_monthly_budget_ok w b t F Z). cbn [truthy].
      unfold nonzero. rewrite E. reflexivity.
    + intros w0 F0 Z0. unfold get_budget_status, bind.
      rewrite (get_monthly_budget_unset w0 F0 Z0). reflexivity.
  - intros fs. unfold get_budget_status, get_monthly_budget.
    run_py. unfold fault_point. destruct w as [s fs0 out td now].
    cbn in Z. cbn. rewrite Z. cbn. unfold nonzero. rewrite E. reflexivity.
Qed.

(** ** When the aggregate query comes back empty *)

Lemma query_try_rows q w rows w' :
  query_try q w = (Ret rows, w') ->
  exists s', sqlite_execute (utc_now w) (db w) q = inr (rows, s').
Proof.
  run_py. unfold fault_point. destruct w as [s fs out td now]. cbn.
  destruct fs as [|[e1|] [|[e2|] fs]]; cbn; try discriminate;
    destruct (sqlite_execute now s q) as [e|[rs s1]]; cbn;
    try discriminate; intros [= <- <-]; eauto.
Qed.

Lemma query_try_raise q w e w' :
  query_try q w = (Raise e, w') ->
  In (Some e) (faults w) \/ sqlite_execute (utc_now w) (db w) q = inl e.
Proof.
  run_py. unfold fault_point. destruct w as [s fs out td now]. cbn.
  destruct fs as [|[e1|] [|[e2|] fs]]; cbn;
    try (intros [= <- <-]; auto; fail);
    destruct (sqlite_execute now s q) as [e0|[rs s1]]; cbn;
    try discriminate; intros [= <- <-]; auto.
Qed.

Lemma query_try_raise_sqlite q w e w' :
  sqlite_faults w -> query_try q w = (Raise e, w') ->
  is_sqlite3_Error e = true.
Proof.
  intros H T. destruct (query_try_raise _ _ _ _ T) as [I|E].
  - now apply H.
  - eapply sqlite_execute_error; eassumption.
Qed.

(** For the [SUM] statement an empty result is the mark of a backend
    error: the statement itself always yields one row. *)
Lemma sum_query_empty_iff win w :
  sqlite_faults w ->
  fst (execute_query (SelectSumAmount win) w) = Ret [] <->
  exists e w', query_try (SelectSumAmount win) w = (Raise e, w').
Proof.
  intros H. unfold execute_query, try_except.
  destruct (query_try (SelectSumAmount win) w) as [[rows|e] w1] eqn:T.
  - cbn. split.
    + intros [= ->]. apply query_try_rows in T. destruct T as [s' T].
      cbn in T. discriminate.
    + intros (e & w' & [=]).
  - split; [eauto|]. intros _.
    unfold except_sqlite3_Error.
    rewrite (query_try_raise_sqlite _ _ _ _ H T). reflexivity.
Qed.

Lemma query_outcome_ret q w rows w' :
  query_outcome q w (Ret rows) w' ->
  rows = [] \/
  exists s', sqlite_execute (utc_now w) (db w) q = inr (rows, s').
Proof. intros Q. inversion Q; subst; eauto. Qed.

Lemma sum_query_shape win w r w1 :
  sqlite_faults w ->
  execute_query (SelectSumAmount win) w = (r, w1) ->
  sqlite_faults w1 /\
  (r = Ret [] \/ exists cell, r = Ret [[cell]]).
Proof.
  intros H E. pose proof (execute_query_outcome (SelectSumAmount win) w) as Q.
  rewrite E in Q. cbn [fst snd] in Q.
  split.
  - eapply sqlite_faults_suffix; [|exact H].
    apply (query_outcome_state _ _ _ _ Q).
  - destruct (query_outcome_returns _ _ _ _ H Q) as [rows ->].
    destruct (query_outcome_ret _ _ _ _ Q) as [->|[s' X]]; [now left|].
    right. cbn in X. injection X as <- _. eauto.
Qed.

Lemma period_dates_returns p today w :
  Calendar.valid today ->
  exists dates, period_dates p today w = (Ret dates, w).
Proof.
  intros V. unfold period_dates.
  repeat match goal with
  | |- context [if ?b then _ else _] => destruct b; [eexists; reflexivity|]
  end.
  - destruct (String.eqb p "weekly").
    + destruct (week_start today V) as (m & -> & _). eexists; reflexivity.
    + repeat match goal with
      | |- context [if ?b then _ else _] => destruct b
      end; eexists; reflexivity.
Qed.

(** C9.  [get_expense_summary] and [get_budget_status] index the first
    row of the [SUM] query without a check.  That query comes back empty
    exactly when the backend failed, and then both operations raise
    [IndexError]; they return a result exactly when the query yields a row
    ([get_budget_status] gets that far only with a budget that is set and
    not zero). *)
Theorem aggregate_row_is_not_checked (RO : RealOrder R) w p :
  sqlite_faults w ->
  Calendar.valid (today w) ->
  (exists dates,
     period_dates p (today w) w = (Ret dates, w) /\
     let q := SelectSumAmount (window_of (fst dates) (snd dates)) in
     (fst (execute_query q w) = Ret [] <->
      exists e w', query_try q w = (Raise e, w')) /\
     (fst (execute_query q w) = Ret [] ->
      exists w', get_expense_summary p w
                 = (Raise (IndexError "list index out of range"), w')) /\
     (fst (execute_query q w) <> Ret [] ->
      exists s w', get_expense_summary p w = (Ret s, w'))) /\
  (forall b w1,
     get_monthly_budget w = (Ret b, w1) -> truthy b = true ->
     let q := SelectSumAmount (month_window (today w)) in
     (fst (execute_query q w1) = Ret [] <->
      exists e w', query_try q w1 = (Raise e, w')) /\
     (fst (execute_query q w1) = Ret [] ->
      exists w', get_budget_status w
                 = (Raise (IndexError "list index out of range"), w')) /\
     (fst (execute_query q w1) <> Ret [] ->
      exists st w', get_budget_status w = (Ret st, w'))).
Proof.
  intros H V. split.
  - destruct (period_dates_returns p (today w) w V) as [dates D].
    exists dates. split; [exact D|]. cbv zeta.
    split; [now apply sum_query_empty_iff|].
    unfold get_expense_summary, bind, datetime_now_date. rewrite D.
    destruct (execute_query (SelectSumAmount _) w) as [r w1] eqn:E.
    destruct (sum_query_shape _ _ _ _ H E) as [H1 [->|[cell ->]]]; cbn [fst].
    + split; [|congruence]. intros _. eexists. reflexivity.
    + split; [discriminate|]. intros _. cbn [getitem nth_error ret].
      pose proof (execute_query_outcome
        (SelectCategoryTotals (window_of (fst dates) (snd dates))) w1) as Q.
      destruct (execute_query (SelectCategoryTotals _) w1) as [r2 w2].
      cbn [fst snd] in Q.
      destruct (query_outcome_returns _ _ _ _ H1 Q) as [rows ->].
      eexists. eexists. reflexivity.
  - intros b w1 G T. cbv zeta.
    assert (H1 : sqlite_faults w1 /\ db w1 = db w /\ today w1 = today w
                 /\ exists x, b = VFloat x).
    { unfold get_monthly_budget, bind in G.
      pose proof (execute_query_outcome SelectMonthlyBudget w) as Q.
      destruct (execute_query SelectMonthlyBudget w) as [r w0].
      cbn [fst snd] in Q.
      destruct (query_outcome_state _ _ _ _ Q) as (D & T0 & _ & S).
      pose proof (sqlite_faults_suffix _ _ S H) as H0.
      destruct (query_outcome_returns _ _ _ _ H Q) as [rows ->].
      destruct (query_outcome_ret _ _ _ _ Q) as [->|[s' X]].
      - cbn in G. injection G as <- <-. discriminate.
      - cbn in X. injection X as <- _.
        destruct (filter _ _) as [|y ys]; cbn in G.
        + injection G as <- <-. discriminate.
        + injection G as <- <-. eauto 6. }
    destruct H1 as (H1 & D1 & T1 & x & ->).
    split; [now apply sum_query_empty_iff|].
    unfold get_budget_status, bind. rewrite G, T. cbn [negb].
    unfold datetime_now_date. rewrite T1. fold (month_window (today w)).
    destruct (execute_query (SelectSumAmount _) w1) as [r w2] eqn:E.
    destruct (sum_query_shape _ _ _ _ H1 E) as [H2 [->|[cell ->]]]; cbn [fst].
    + split; [|congruence]. intros _. eexists. reflexivity.
    + split; [discriminate|]. intros _. cbn [getitem nth_error ret].
      assert (C : exists s, (if truthy cell then cell else VFloat r0)
                            = VFloat s).
      { pose proof (execute_query_outcome
          (SelectSumAmount (month_window (today w))) w1) as Q.
        rewrite E in Q. cbn [fst snd] in Q.
        destruct (query_outcome_ret _ _ _ _ Q) as [[=]|[s' X]].
        cbn in X. injection X as <- _. rewrite sum_cell. eauto. }
      destruct C as [s ->]. cbn [py_sub to_real ret py_gt].
      fold (@r0 R). destruct (rltb r0 x) eqn:P.
      * unfold py_truediv. cbn [to_real]. rewrite (pos_nonzero _ P).
        cbn. eexists. eexists. reflexivity.
      * eexists. eexists. reflexivity.
Qed.

(** ** The date window of a summary *)

Lemma text_le_strftime a b :
  valid a -> valid b ->
  text_le (strftime a) (strftime b) = true <-> date_le a b.
Proof.
  intros Va Vb. unfold text_le, String.leb, date_le.
  rewrite (strftime_compare a b Va Vb).
  destruct (compare_date a b); split; congruence.
Qed.

Lemma in_window_dates win e d :
  window_valid win -> valid d -> e_date e = strftime d ->
  in_window (window_text win) e = true <-> in_dates win d.
Proof.
  intros W V E. destruct win as [[lo hi]|];
    cbn [window_text in_window in_dates]; [|tauto].
  destruct W as [Vlo Vhi]. unfold between. rewrite E, andb_true_iff.
  rewrite !text_le_strftime by assumption. reflexivity.
Qed.

Lemma replace_day1_valid d : valid d -> valid (replace_day1 d).
Proof.
  intros (Y & M & D).
  pose proof (days_in_month_pos (year d) (month d) M).
  unfold valid, replace_day1. cbn [year month day]. lia.
Qed.

Lemma replace_month1_day1_valid d : valid d -> valid (replace_month1_day1 d).
Proof.
  intros (Y & M & D).
  pose proof (days_in_month_pos (year d) 1 ltac:(lia)).
  unfold valid, replace_month1_day1. cbn [year month day]. lia.
Qed.

(** The [if]/[elif] chain picks the window the specification names. *)
Lemma period_dates_window p today w :
  valid today ->
  exists win,
    period_window today p win /\ window_valid win /\
    period_dates p today w
    = (Ret (option_map fst (window_text win),
            option_map snd (window_text win)), w).
Proof.
  intros V. unfold period_dates.
  destruct (String.eqb_spec p "daily") as [->|N1].
  { exists (Some (today, today)).
    split; [constructor|]. split; [split; assumption|reflexivity]. }
  destruct (String.eqb_spec p "weekly") as [->|N2].
  { destruct (week_start today V) as (m & -> & Vm & Wm & Om).
    exists (Some (m, today)).
    split; [now constructor|]. split; [split; assumption|reflexivity]. }
  destruct (String.eqb_spec p "monthly") as [->|N3].
  { exists (Some (replace_day1 today, today)).
    split; [constructor|]. split; [|reflexivity].
    split; [now apply replace_day1_valid|assumption]. }
  destruct (String.eqb_spec p "yearly") as [->|N4].
  { exists (Some (replace_month1_day1 today, today)).
    split; [constructor|]. split; [|reflexivity].
    split; [now apply replace_month1_day1_valid|assumption]. }
  exists None. split; [now constructor|]. split; [exact I|reflexivity].
Qed.


(** ** The category breakdown against the total *)

Section Exact.
Context {RE : RealExact R}.

Lemma radd_0_r a : radd a r0 = a.
Proof. rewrite radd_comm. apply radd_0_l. Qed.

Lemma fold_radd l acc : fold_left radd l acc = radd acc (rsum l).
Proof.
  unfold rsum. revert acc. induction l as [|x l IH]; intros acc; cbn.
  - now rewrite radd_0_r.
  - rewrite IH, (IH (radd r0 x)), radd_0_l. now rewrite radd_assoc.
Qed.

Lemma rsum_nil : rsum [] = r0.
Proof. reflexivity. Qed.

Lemma rsum_cons x l : rsum (x :: l) = radd x (rsum l).
Proof. unfold rsum at 1. cbn. now rewrite fold_radd, radd_0_l. Qed.

Lemma rsum_perm l l' : Permutation l l' -> rsum l = rsum l'.
Proof.
  induction 1 as [|x l l' _ IH|x y l|l l' l'' _ IH1 _ IH2].
  - reflexivity.
  - now rewrite !rsum_cons, IH.
  - rewrite !rsum_cons, !radd_assoc. f_equal. apply radd_comm.
  - congruence.
Qed.

Lemma add_to_group_sum c a g :
  rsum (map snd (add_to_group c a g)) = radd (rsum (map snd g)) a.
Proof.
  induction g as [|[c' t] g IH]; cbn [add_to_group map snd].
  - now rewrite rsum_cons, rsum_nil, radd_0_l, radd_0_r.
  - destruct (String.eqb c' c); cbn [map snd]; rewrite !rsum_cons.
    + rewrite <- !radd_assoc. f_equal. apply radd_comm.
    + rewrite IH. now rewrite radd_assoc.
Qed.

Lemma group_totals_sum es g :
  rsum (map snd
     (fold_left (fun g e => add_to_group (e_category e) (e_amount e) g) es g))
  = radd (rsum (map snd g)) (rsum (map e_amount es)).
Proof.
  revert g. induction es as [|e es IH]; intros g; cbn [fold_left map].
  - now rewrite rsum_nil, radd_0_r.
  - rewrite IH, add_to_group_sum, rsum_cons. now rewrite radd_assoc.
Qed.

Lemma category_totals_sum es :
  rsum (map snd (category_totals es)) = rsum (map e_amount es).
Proof.
  unfold category_totals.
  rewrite (rsum_perm _ (map snd (group_totals es))).
  - unfold group_totals. rewrite group_totals_sum.
    cbn [map]. rewrite rsum_nil. apply radd_0_l.
  - apply Permutation_map. rewrite !sort_by_perm. reflexivity.
Qed.

Lemma breakdown_sum_rows (g : list (string * real)) :
  breakdown_sum (map (fun x => [VStr (fst x); VFloat (snd x)]) g)
  = rsum (map snd g).
Proof. unfold breakdown_sum. now rewrite map_map. Qed.

Lemma total_of_exact es : total_of es = rsum (map e_amount es).
Proof.
  unfold total_of, nonzero. cbv zeta.
  destruct (reqb (rsum (map e_amount es)) r0) eqn:E; cbn; [|reflexivity].
  symmetry. now apply req_zero.
Qed.

Lemma period_dates_world p t w r w' : period_dates p t w = (r, w') -> w' = w.
Proof.
  unfold period_dates.
  repeat match goal with
  | |- context [if ?b then _ else _] => destruct b
  | |- context [match ?o with Some _ => _ | None => _ end] => destruct o
  end; now intros [= _ <-].
Qed.


End Exact.

End Program_facts.

(* ================================================================== *)
(** * The statements at concrete ledgers                               *)
(* ================================================================== *)

Section OnDoubles.
#[local] Existing Instance binary64.

(** A lunch recorded on the fresh ledger comes back as the only row. *)
Lemma record_then_query_witness :
  faults (fresh_world binary64) = [] /\
  @rltb binary64 r0 12.5%float = true /\
  exists id w1 rows0 rows1,
    add_expense (R := binary64) "2026-11-03" "Food" 12.5%float "lunch"
      (fresh_world binary64) = (Ret true, w1) /\
    all_expenses (fresh_world binary64) = (Ret rows0, fresh_world binary64) /\
    all_expenses w1 = (Ret rows1, w1) /\
    let written :=
      [VInt id; VStr "2026-11-03"; VStr "Food"; VFloat 12.5%float;
       VStr "lunch"] in
    ~ In written rows0 /\
    Permutation rows1 (written :: rows0) /\
    (expenses (db (fresh_world binary64)) = [] -> rows1 = [written]).
Proof.
  split; [reflexivity|]. split; [reflexivity|].
  apply (@record_then_query binary64 binary64_order); reflexivity.
Defined.





(** "Food" is seeded at start-up; adding it again is refused. *)
Lemma duplicate_category_rejected_witness :
  faults (fresh_world binary64) = [] /\
  In "Food" (category_names (db (fresh_world binary64))) /\
  exists w' names,
    add_category "Food" (fresh_world binary64) = (Ret false, w') /\
    db w' = db (fresh_world binary64) /\
    get_categories w' = (Ret (map VStr names), w') /\
    count_occ string_dec names "Food" = 1%nat.
Proof.
  split; [reflexivity|]. split; [now left|].
  apply (@duplicate_category_rejected binary64 (fresh_world binary64) "Food").
  - reflexivity.
  - vm_compute.
    repeat (constructor; [cbn; intuition discriminate|]). constructor.
  - now left.
Defined.

(** C7 as worded fails: the second "Food" is answered with false. *)
Lemma duplicate_add_is_not_silent : ~ @duplicate_add_is_silent binary64.
Proof.
  intros H.
  specialize (H (fresh_world binary64) "Food" eq_refl (or_introl eq_refl)).
  vm_compute in H. discriminate.
Qed.

(** The refusal of the second "Food" changes the console only. *)
Lemma duplicate_category_unchanged_but_refused_witness :
  add_category "Food" (fresh_world binary64)
  = (Ret false,
     write_line
       "Database update error: UNIQUE constraint failed: categories.name"
       (fresh_world binary64)).
Proof.
  apply (@duplicate_category_unchanged_but_refused binary64);
    [reflexivity|now left].
Defined.

(** A database file that cannot be opened: both wrappers return their
    empty answer and print the error. *)
Lemma backend_errors_fail_soft_witness :
  execute_query SelectCategoryNames (failing_world binary64)
  = (Ret [],
     write_line "Database query error: unable to open database file"
       (fresh_world binary64)) /\
  execute_update (InsertCategory "Pets") (failing_world binary64)
  = (Ret false,
     write_line "Database update error: unable to open database file"
       (fresh_world binary64)).
Proof.
  split.
  - apply (proj1 (@backend_errors_fail_soft binary64 SelectCategoryNames
                    (failing_world binary64) unable_to_open
                    (fresh_world binary64) eq_refl)).
    reflexivity.
  - apply (proj2 (@backend_errors_fail_soft binary64 (InsertCategory "Pets")
                    (failing_world binary64) unable_to_open
                    (fresh_world binary64) eq_refl)).
    reflexivity.
Defined.

(** The backend fails on the [SUM] query: the summary raises at once, the
    budget status after its budget query went through. *)
Lemma aggregate_row_is_not_checked_witness :
  sqlite_faults (failing_world binary64) /\
  (exists w',
     get_expense_summary "monthly" (failing_world binary64)
     = (Raise (IndexError "list index out of range"), w')) /\
  (exists w',
     get_budget_status
       (set_faults [None; None; Some unable_to_open] (budget_world 100 80))
     = (Raise (IndexError "list index out of range"), w')).
Proof.
  assert (S : sqlite_faults (failing_world binary64))
    by (intros e [[= <-]|[]]; reflexivity).
  assert (V : valid (today (failing_world binary64)))
    by (repeat split; vm_compute; discriminate).
  split; [exact S|]. split.
  - destruct (@aggregate_row_is_not_checked binary64 binary64_order
                (failing_world binary64) "monthly" S V)
      as [(dates & _ & _ & X & _) _].
    apply X. vm_compute. reflexivity.
  - assert (S' : sqlite_faults
                   (set_faults [None; None; Some unable_to_open]
                      (budget_world 100 80)))
      by (intros e [[=]|[[=]|[[= <-]|[]]]]; reflexivity).
    destruct (@aggregate_row_is_not_checked binary64 binary64_order
                (set_faults [None; None; Some unable_to_open]
                   (budget_world 100 80)) "monthly" S' V)
      as [_ Y].
    destruct (Y (@VFloat binary64 100%float)
                (set_faults [Some unable_to_open] (budget_world 100 80))
                eq_refl eq_refl) as (_ & X & _).
    apply X. vm_compute. reflexivity.
Defined.

(** A budget of 0.0 is stored and read back, and the status ignores it;
    a failure scheduled for a third backend call is never met. *)
Lemma zero_budget_reads_as_unset_witness :
  let w := snd (set_monthly_budget (R := binary64) 0%float
                  (fresh_world binary64)) in
  get_monthly_budget w = (Ret (VFloat 0%float), w) /\
  get_budget_status w = (Ret no_budget, w) /\
  get_budget_status (set_faults [None; None; Some unable_to_open] w)
  = (Ret no_budget, set_faults [Some unable_to_open] w).
Proof.
  cbv zeta.
  destruct (@zero_budget_reads_as_unset binary64
              (snd (set_monthly_budget (R := binary64) 0%float
                      (fresh_world binary64)))
              0%float demo_now eq_refl eq_refl) as [A B].
  destruct (A eq_refl) as (G & S & _).
  split; [exact G|]. split; [exact S|]. apply B.
Defined.

End OnDoubles.

Section OnUnits.
#[local] Existing Instance exact_units.


End OnUnits.

(* ================================================================== *)
(** * Beyond the summaries: order, seeding, sessions, failures         *)
(* ================================================================== *)

(** ** Text order *)

Lemma text_le_refl a : text_le a a = true.
Proof.
  unfold text_le, String.leb.
  induction a as [|x a IH]; cbn; [reflexivity|].
  unfold Ascii.compare. rewrite N.compare_refl. exact IH.
Qed.

Lemma text_le_trans a b c :
  text_le a b = true -> text_le b c = true -> text_le a c = true.
Proof.
  unfold text_le, String.leb. revert b c.
  induction a as [|x a IH]; intros [|y b] [|z c]; cbn;
    try reflexivity; try discriminate.
  unfold Ascii.compare.
  destruct (N.compare_spec (N_of_ascii x) (N_of_ascii y)) as [E1|L1|L1];
  destruct (N.compare_spec (N_of_ascii y) (N_of_ascii z)) as [E2|L2|L2];
  destruct (N.compare_spec (N_of_ascii x) (N_of_ascii z)) as [E3|L3|L3];
  try reflexivity; try discriminate; try lia.
  apply IH.
Qed.

Lemma text_lt_le a b : text_lt a b = negb (text_le b a).
Proof.
  unfold text_lt, text_le, String.ltb, String.leb.
  rewrite (String.compare_antisym b a).
  destruct (String.compare a b); reflexivity.
Qed.

Lemma text_le_total a b : text_le a b = true \/ text_le b a = true.
Proof. apply String.leb_total. Qed.

(** ** Sorted output of the insertion sort *)

Section Sorted_output.
Context {A : Type} (before : A -> A -> bool).

Hypothesis before_asym : forall x y, before x y = true -> before y x = false.
Hypothesis in_order_trans :
  forall x y z, in_order before x y -> in_order before y z ->
                in_order before x z.

Lemma insert_by_Forall P x l :
  P x -> Forall P l -> Forall P (insert_by before x l).
Proof.
  intros Px. induction 1 as [|y l Py Pl IH]; cbn.
  - auto.
  - destruct (before y x); auto.
Qed.

Lemma insert_by_sorted x l :
  StronglySorted (in_order before) l ->
  StronglySorted (in_order before) (insert_by before x l).
Proof.
  induction 1 as [|y l Sl IH Hy]; cbn.
  - constructor; constructor.
  - destruct (before y x) eqn:B.
    + constructor; [exact IH|].
      apply insert_by_Forall; [|exact Hy].
      unfold in_order. now apply before_asym.
    + constructor; [constructor; assumption|].
      constructor; [exact B|].
      eapply Forall_impl; [|exact Hy].
      intros z Hz. eapply in_order_trans; [exact B|exact Hz].
Qed.

Lemma sort_by_sorted l :
  StronglySorted (in_order before) (sort_by before l).
Proof.
  induction l as [|x l IH]; cbn; [constructor|].
  now apply insert_by_sorted.
Qed.

End Sorted_output.

(** Rows that tie keep their input order. *)
Lemma insert_by_stable {A} (before : A -> A -> bool) (p : A -> bool) x l :
  (forall y, p x = true -> p y = true -> before y x = false) ->
  filter p (insert_by before x l) = filter p (x :: l).
Proof.
  intros T. induction l as [|y l IH]; [reflexivity|].
  cbn [insert_by]. destruct (before y x) eqn:B; [|reflexivity].
  cbn [filter] in *. rewrite IH.
  destruct (p x) eqn:Px; [|reflexivity].
  destruct (p y) eqn:Py; [|reflexivity].
  rewrite (T y eq_refl Py) in B. discriminate.
Qed.

Lemma sort_by_stable {A} (before : A -> A -> bool) (p : A -> bool) l :
  (forall x y, p x = true -> p y = true -> before y x = false) ->
  filter p (sort_by before l) = filter p l.
Proof.
  intros T. induction l as [|x l IH]; [reflexivity|].
  cbn [sort_by fold_right]. fold (sort_by before l).
  rewrite insert_by_stable by (intros; now apply T).
  cbn [filter]. now rewrite IH.
Qed.

Section Ledger_facts.
Context {R : Real}.

Lemma given_cases (o : option string) :
  (given o = None /\ (o = None \/ o = Some "")) \/
  (exists s, given o = Some s /\ o = Some s /\ s <> "").
Proof.
  destruct o as [s|]; cbn; [|auto].
  destruct (String.eqb_spec s ""); [subst; auto|].
  right. eauto.
Qed.

Lemma text_clause (mk : string -> clause) (o : option string) e
      (P : string -> Prop) :
  (forall s, holds (mk s) e = true <-> P s) ->
  forallb (fun c => holds c e) (opt_clause mk (given o)) = true <->
  (forall s, o = Some s -> s <> "" -> P s).
Proof.
  intros H.
  destruct (given_cases o) as [[-> [->| ->]]|(s & -> & -> & N)]; cbn.
  - split; [discriminate|reflexivity].
  - split; [|reflexivity]. intros _ s [= <-] N. now elim N.
  - rewrite andb_true_r, H. split; [now intros p s' [= <-] _|auto].
Qed.

Lemma amount_clause (mk : real -> clause) (o : option real) e
      (P : real -> Prop) :
  (forall a, holds (mk a) e = true <-> P a) ->
  forallb (fun c => holds c e) (opt_clause mk o) = true <->
  (forall a, o = Some a -> P a).
Proof.
  intros H. destruct o as [a|]; cbn.
  - rewrite andb_true_r, H. split; [now intros p a' [= <-]|auto].
  - split; [discriminate|reflexivity].
Qed.

(** The [WHERE] clause [get_expenses] builds from its arguments. *)
Lemma where_wanted sd ed cat mn mx kw e :
  forallb (fun c => holds c e)
    (opt_clause DateGe (given sd)
     ++ opt_clause DateLe (given ed)
     ++ opt_clause CategoryEq (given cat)
     ++ opt_clause AmountGe mn
     ++ opt_clause AmountLe mx
     ++ opt_clause (fun k => DescriptionLike ("%" ++ k ++ "%"))
                   (given kw))%list = true
  <-> wanted sd ed cat mn mx kw e.
Proof.
  rewrite !forallb_app, !andb_true_iff. unfold wanted.
  rewrite (text_clause DateGe sd e (fun s => text_le s (e_date e) = true))
    by reflexivity.
  rewrite (text_clause DateLe ed e (fun s => text_le (e_date e) s = true))
    by reflexivity.
  rewrite (text_clause CategoryEq cat e (fun c => e_category e = c))
    by (intros; apply String.eqb_eq).
  rewrite (amount_clause AmountGe mn e (fun a => rleb a (e_amount e) = true))
    by reflexivity.
  rewrite (amount_clause AmountLe mx e (fun a => rleb (e_amount e) a = true))
    by reflexivity.
  rewrite (text_clause (fun k => DescriptionLike ("%" ++ k ++ "%")) kw e
             (fun k => sql_like (e_description e) ("%" ++ k ++ "%") = true))
    by reflexivity.
  tauto.
Qed.

Lemma get_expenses_rows w sd ed cat mn mx kw :
  faults w = [] ->
  get_expenses sd ed cat mn mx kw w
  = (Ret (map expense_tuple
            (sort_by newest_first
               (filter (fun e => forallb (fun c => holds c e)
                  (opt_clause DateGe (given sd)
                   ++ opt_clause DateLe (given ed)
                   ++ opt_clause CategoryEq (given cat)
                   ++ opt_clause AmountGe mn
                   ++ opt_clause AmountLe mx
                   ++ opt_clause
                        (fun k => DescriptionLike ("%" ++ k ++ "%"))
                        (given kw))%list)
                  (expenses (db w))))), w).
Proof.
  intros F. unfold get_expenses.
  eapply execute_query_ok; [exact F|reflexivity].
Qed.


Lemma newest_first_sorted (l : list expense) :
  StronglySorted not_older (sort_by newest_first l).
Proof.
  assert (E : forall a b, in_order newest_first a b <-> not_older a b).
  { intros a b. unfold in_order, newest_first, not_older.
    rewrite text_lt_le. destruct (text_le (e_date b) (e_date a)); cbn;
      split; congruence. }
  assert (S : StronglySorted (in_order newest_first)
                (sort_by newest_first l)).
  { apply sort_by_sorted.
    - intros x y. unfold newest_first. rewrite !text_lt_le.
      destruct (text_le_total (e_date x) (e_date y)) as [H|H]; rewrite H;
        cbn; [discriminate|].
      destruct (text_le (e_date x) (e_date y)); [discriminate|reflexivity].
    - intros x y z. rewrite !E. unfold not_older. intros H1 H2.
      eapply text_le_trans; eassumption. }
  revert S. generalize (sort_by newest_first l).
  induction 1 as [|x l' S IH H]; constructor; [exact IH|].
  eapply Forall_impl; [|exact H]. intros a. apply E.
Qed.


(** ** [LIKE] *)

Lemma like_percent_end s : like_chars ["%"%char] s = true.
Proof.
  induction s as [|c s IH]; [reflexivity|].
  change (like_chars ["%"%char] (c :: s))
    with (like_chars [] (c :: s) || like_chars ["%"%char] s).
  rewrite IH. apply orb_true_r.
Qed.

Lemma like_percent_skip pat pre s :
  like_chars pat s = true -> like_chars ("%"%char :: pat) (pre ++ s) = true.
Proof.
  intros H. induction pre as [|c pre IH]; cbn [app].
  - destruct s as [|c s].
    + change (like_chars ("%"%char :: pat) [])
        with (like_chars pat [] || false).
      now rewrite H.
    + change (like_chars ("%"%char :: pat) (c :: s))
        with (like_chars pat (c :: s) || like_chars ("%"%char :: pat) s).
      now rewrite H.
  - change (like_chars ("%"%char :: pat) (c :: pre ++ s))
      with (like_chars pat (c :: pre ++ s)
            || like_chars ("%"%char :: pat) (pre ++ s)).
    rewrite IH. apply orb_true_r.
Qed.

Lemma like_same_letter p c pat s :
  ascii_upper p = ascii_upper c ->
  like_chars pat s = true -> like_chars (p :: pat) (c :: s) = true.
Proof.
  intros U H. cbn [like_chars].
  destruct (Ascii.eqb p "%") eqn:E.
  - destruct s as [|c' s]; rewrite H; [apply orb_true_r|].
    rewrite orb_true_l. apply orb_true_r.
  - rewrite U, Ascii.eqb_refl, orb_true_r. exact H.
Qed.

Lemma like_same_letters k found pat s :
  map ascii_upper k = map ascii_upper found ->
  like_chars pat s = true ->
  like_chars (k ++ pat) (found ++ s) = true.
Proof.
  revert found. induction k as [|p k IH]; intros [|c found] E H;
    try discriminate; [exact H|].
  injection E as E1 E2. cbn [app].
  apply like_same_letter; [exact E1|]. now apply IH.
Qed.

Lemma list_ascii_app a b :
  list_ascii_of_string (a ++ b)
  = (list_ascii_of_string a ++ list_ascii_of_string b)%list.
Proof. induction a as [|c a IH]; cbn; [reflexivity|now rewrite IH]. Qed.

Lemma sql_like_contains pre found post k :
  same_letters k found ->
  sql_like (pre ++ found ++ post) ("%" ++ k ++ "%") = true.
Proof.
  intros S. unfold sql_like. rewrite !list_ascii_app.
  change (list_ascii_of_string "%") with ["%"%char]. cbn [app].
  apply like_percent_skip. apply like_same_letters; [exact S|].
  apply like_percent_end.
Qed.



Lemma steps_trans s1 s2 s3 : steps s1 s2 -> steps s2 s3 -> steps s1 s3.
Proof.
  intros H12 H23. induction H23; [exact H12|].
  eapply steps_next; eauto.
Qed.

Lemma steps_one now s q rows s' :
  sqlite_execute now s q = inr (rows, s') -> steps s s'.
Proof. intros E. eapply steps_next; [apply steps_refl|exact E]. Qed.

(** ** Seeding *)

Lemma seed_category_step now s n : steps s (seed_category now s n).
Proof.
  apply (steps_one now s (InsertOrIgnoreCategory n) []).
  unfold seed_category. cbn. destruct (has_name n (categories s)); reflexivity.
Qed.

Lemma seed_fold_steps now names s :
  steps s (fold_left (seed_category now) names s).
Proof.
  revert s. induction names as [|n names IH]; intros s; cbn.
  - apply steps_refl.
  - eapply steps_trans; [apply seed_category_step|apply IH].
Qed.

Lemma quiet_refl w : quiet w w.
Proof. exists (faults w). split; [apply suffix_refl|]. now destruct w. Qed.

Lemma suffix_trans a b c :
  suffix a b -> suffix b c -> suffix a c.
Proof. intros [u ->] [v ->]. exists (v ++ u)%list. now rewrite app_assoc. Qed.

Lemma quiet_trans w1 w2 w3 : quiet w1 w2 -> quiet w2 w3 -> quiet w1 w3.
Proof.
  intros (f2 & S2 & ->) (f3 & S3 & ->). exists f3. split; [|reflexivity].
  cbn in S3. eapply suffix_trans; eassumption.
Qed.

Lemma fault_point_quiet w :
  quiet w (snd (fault_point w)) /\
  forall e, fst (fault_point w) = Raise e -> In (Some e) (faults w).
Proof.
  unfold fault_point. destruct (faults w) as [|[e|] fs] eqn:F; cbn.
  - split; [apply quiet_refl|discriminate].
  - split; [|intros e' [= <-]; now left].
    exists fs. split; [|reflexivity]. rewrite F. apply suffix_cons, suffix_refl.
  - split; [|discriminate].
    exists fs. split; [|reflexivity]. rewrite F. apply suffix_cons, suffix_refl.
Qed.

Lemma quiet_In w w' f : quiet w w' -> In f (faults w') -> In f (faults w).
Proof. intros (fs & S & ->) I. eapply suffix_In; eassumption. Qed.

Lemma quiet_utc w w' : quiet w w' -> utc_now w' = utc_now w.
Proof. now intros (fs & _ & ->). Qed.

Lemma quiet_db w w' : quiet w w' -> db w' = db w.
Proof. now intros (fs & _ & ->). Qed.

Lemma insert_defaults_cons conn n names w :
  insert_defaults conn (n :: names) w
  = match fault_point w with
    | (Ret _, w1) =>
        insert_defaults (seed_category (utc_now w1) conn n) names w1
    | (Raise e, w1) => (Raise e, w1)
    end.
Proof.
  cbn [insert_defaults]. cbv beta delta [bind cursor_execute].
  destruct (fault_point w) as [[[]|e] w1]; [|reflexivity].
  unfold seed_category. cbn.
  destruct (has_name n (categories conn)); reflexivity.
Qed.

(** The seeding loop works on the connection's view; in the world it only
    uses up failures. *)
Lemma insert_defaults_quiet names conn w :
  quiet w (snd (insert_defaults conn names w)) /\
  match fst (insert_defaults conn names w) with
  | Ret c => c = fold_left (seed_category (utc_now w)) names conn
  | Raise e => In (Some e) (faults w)
  end.
Proof.
  revert conn w. induction names as [|n names IH]; intros conn w.
  - cbn. split; [apply quiet_refl|reflexivity].
  - rewrite insert_defaults_cons. cbn [fold_left].
    destruct (fault_point_quiet w) as [Q E].
    destruct (fault_point w) as [[[]|e] w1]; cbn [fst snd] in *.
    + destruct (IH (seed_category (utc_now w1) conn n) w1) as [Q' E'].
      destruct (insert_defaults _ names w1) as [[c|e] w2]; cbn [fst snd] in *.
      * split; [eapply quiet_trans; eassumption|].
        now rewrite E', (quiet_utc _ _ Q).
      * split; [eapply quiet_trans; eassumption|].
        eapply quiet_In; eassumption.
    + split; [exact Q|]. now apply E.
Qed.

(** The [try] block of [init_database]: either every call went through
    and the seeded view was committed, or a call failed and the world is
    as before but for the failures used up. *)
Lemma init_try_cases w :
  let body :=
    (conn <- sqlite3_connect ;;
     r <- cursor_execute conn CreateTablesIfNotExist ;;
     conn <- insert_defaults (snd r) default_categories ;;
     conn_commit conn) in
  (exists w', quiet w w' /\
              body w = (Ret tt, set_db (seeded (utc_now w) (db w)) w')) \/
  (exists e w', quiet w w' /\ In (Some e) (faults w) /\
                body w = (Raise e, w')).
Proof.
  cbv zeta.
  cbv beta delta [bind sqlite3_connect cursor_execute conn_commit].
  destruct (fault_point_quiet w) as [Q1 E1].
  destruct (fault_point w) as [[[]|e1] w1]; cbn [fst snd] in *;
    [|right; exists e1, w1; auto].
  destruct (fault_point_quiet w1) as [Q2 E2].
  destruct (fault_point w1) as [[[]|e2] w2]; cbn [fst snd] in *;
    [|right; exists e2, w2; split; [eapply quiet_trans; eassumption|];
      split; [eapply quiet_In; eauto|reflexivity]].
  cbn [sqlite_execute snd].
  pose proof (quiet_trans _ _ _ Q1 Q2) as Q12.
  destruct (insert_defaults_quiet default_categories (db w1) w2) as [Q3 E3].
  destruct (insert_defaults (db w1) default_categories w2) as [[c|e3] w3];
    cbn [fst snd] in *;
    [|right; exists e3, w3; split; [eapply quiet_trans; eassumption|];
      split; [eapply quiet_In; eauto|reflexivity]].
  pose proof (quiet_trans _ _ _ Q12 Q3) as Q123.
  destruct (fault_point_quiet w3) as [Q4 E4].
  destruct (fault_point w3) as [[[]|e4] w4]; cbn [fst snd] in *;
    [|right; exists e4, w4; split; [eapply quiet_trans; eassumption|];
      split; [eapply quiet_In; eauto|reflexivity]].
  left. exists w4. split; [eapply quiet_trans; eassumption|].
  rewrite E3, (quiet_db _ _ Q1), (quiet_utc _ _ Q12). reflexivity.
Qed.

Lemma has_name_insert now n m s :
  has_name m (categories (insert_category now n s))
  = has_name m (categories s) || String.eqb n m.
Proof.
  unfold has_name, insert_category. cbn [categories].
  rewrite existsb_app. cbn. now rewrite orb_false_r.
Qed.

Lemma seed_category_spec now s n :
  let s' := seed_category now s n in
  expenses s' = expenses s /\ budget s' = budget s /\
  (exists new, categories s' = (categories s ++ new)%list /\
     forall c, In c new ->
       c_name c = n /\ has_name n (categories s) = false) /\
  has_name n (categories s') = true /\
  (forall m, has_name m (categories s) = true ->
             has_name m (categories s') = true) /\
  (NoDup (category_names s) -> NoDup (category_names s')) /\
  (NoDup (map c_id (categories s)) -> NoDup (map c_id (categories s'))).
Proof.
  cbv zeta. unfold seed_category.
  destruct (has_name n (categories s)) eqn:H.
  - repeat split; auto. exists []. split; [now rewrite app_nil_r|].
    intros c [].
  - repeat split; auto.
    + eexists. split; [reflexivity|]. intros c [<-|[]]. auto.
    + rewrite has_name_insert, String.eqb_refl. apply orb_true_r.
    + intros m Hm. rewrite has_name_insert, Hm. reflexivity.
    + intros N. unfold category_names, insert_category. cbn [categories].
      rewrite map_app. cbn [map c_name].
      apply (Permutation_NoDup (Permutation_cons_append _ n)).
      constructor; [|exact N].
      intros I. apply has_name_In in I. congruence.
    + intros N. unfold insert_category. cbn [categories].
      rewrite map_app. cbn [map c_id].
      apply (Permutation_NoDup (Permutation_cons_append _ _)).
      constructor; [|exact N].
      intros I. apply in_map_iff in I. destruct I as (c & E & I).
      apply (max_id_ge c_id) in I. unfold next_id in E. lia.
Qed.

Lemma seed_fold_spec now names s :
  let s' := fold_left (seed_category now) names s in
  expenses s' = expenses s /\ budget s' = budget s /\
  (exists new, categories s' = (categories s ++ new)%list /\
     forall c, In c new ->
       In (c_name c) names /\ has_name (c_name c) (categories s) = false) /\
  (forall n, In n names -> has_name n (categories s') = true) /\
  (forall m, has_name m (categories s) = true ->
             has_name m (categories s') = true) /\
  (NoDup (category_names s) -> NoDup (category_names s')) /\
  (NoDup (map c_id (categories s)) -> NoDup (map c_id (categories s'))).
Proof.
  revert s. induction names as [|n names IH]; intros s; cbn [fold_left].
  - repeat split; auto; try contradiction.
    exists []. split; [now rewrite app_nil_r|]. intros c [].
  - destruct (seed_category_spec now s n)
      as (E1 & B1 & (new1 & C1 & N1) & H1 & M1 & D1 & I1).
    destruct (IH (seed_category now s n))
      as (E2 & B2 & (new2 & C2 & N2) & H2 & M2 & D2 & I2).
    cbv zeta in *. repeat split.
    + congruence.
    + congruence.
    + exists (new1 ++ new2)%list. split; [now rewrite C2, C1, app_assoc|].
      intros c I. apply in_app_or in I. destruct I as [I|I].
      * destruct (N1 c I) as [-> F]. split; [now left|exact F].
      * destruct (N2 c I) as [I' F]. split; [now right|].
        destruct (has_name (c_name c) (categories s)) eqn:X; [|reflexivity].
        rewrite (M1 _ X) in F. discriminate.
    + intros m [<-|I]; [now apply M2|now apply H2].
    + intros m Hm. now apply M2, M1.
    + intros N. now apply D2, D1.
    + intros N. now apply I2, I1.
Qed.

Lemma seed_fold_fixed now names s :
  (forall n, In n names -> has_name n (categories s) = true) ->
  fold_left (seed_category now) names s = s.
Proof.
  induction names as [|n names IH]; intros H; cbn [fold_left]; [reflexivity|].
  unfold seed_category at 2. rewrite (H n) by now left.
  apply IH. intros m I. apply H. now right.
Qed.

Lemma init_database_ok w :
  faults w = [] ->
  init_database w = (Ret tt, set_db (seeded (utc_now w) (db w)) w).
Proof.
  intros F. unfold init_database, try_except.
  destruct (init_try_cases w) as [(w' & Q & ->)|(e & w' & _ & I & _)].
  - destruct Q as (fs & [u S] & ->). rewrite F in S.
    symmetry in S. apply app_eq_nil in S. destruct S as [_ ->].
    destruct w. cbn in F. subst. reflexivity.
  - rewrite F in I. contradiction.
Qed.




(** ** The database moves by statements only *)

Lemma evolving_ret {A} (a : A) : evolving (ret a).
Proof. intros w. apply steps_refl. Qed.

Lemma evolving_raise {A} (e : exn) : evolving (@raise R A e).
Proof. intros w. apply steps_refl. Qed.

Lemma evolving_bind {A B} (m : py A) (k : A -> py B) :
  evolving m -> (forall a, evolving (k a)) -> evolving (bind m k).
Proof.
  intros Hm Hk w. unfold bind. specialize (Hm w).
  destruct (m w) as [[a|e] w1]; cbn [snd] in *; [|exact Hm].
  eapply steps_trans; [exact Hm|apply Hk].
Qed.

Lemma evolving_execute_query q : evolving (execute_query q).
Proof.
  intros w. pose proof (execute_query_outcome q w) as Q.
  apply query_outcome_state in Q. destruct Q as (-> & _). apply steps_refl.
Qed.

Lemma evolving_execute_update q : evolving (execute_update q).
Proof.
  intros w. pose proof (execute_update_outcome q w) as U.
  apply update_outcome_state in U.
  destruct U as (_ & _ & _ & [->|[rows E]]); [apply steps_refl|].
  eapply steps_one; exact E.
Qed.

Lemma evolving_getitem {A} (l : list A) i : evolving (getitem l i).
Proof.
  unfold getitem. destruct (nth_error l i);
    [apply evolving_ret|apply evolving_raise].
Qed.

Lemma evolving_first_columns rows : evolving (first_columns rows).
Proof.
  induction rows as [|r rows IH]; cbn [first_columns];
    [apply evolving_ret|].
  apply evolving_bind; [apply evolving_getitem|]. intros v.
  apply evolving_bind; [exact IH|]. intros vs. apply evolving_ret.
Qed.

Lemma evolving_period_dates p t : evolving (period_dates p t).
Proof.
  unfold period_dates.
  repeat match goal with
  | |- context [if ?b then _ else _] => destruct b
  | |- context [match ?o with Some _ => _ | None => _ end] => destruct o
  end; apply evolving_ret || apply evolving_raise.
Qed.

Lemma evolving_arith (a b : value) :
  evolving (py_sub a b) /\ evolving (py_mul a b) /\
  evolving (py_truediv a b) /\ evolving (py_gt a b).
Proof.
  unfold py_sub, py_mul, py_truediv, py_gt.
  repeat split; destruct a, b; cbn [to_real];
    repeat match goal with
    | |- context [if ?c then _ else _] => destruct c
    end; apply evolving_ret || apply evolving_raise.
Qed.

Lemma evolving_get_monthly_budget : evolving get_monthly_budget.
Proof.
  unfold get_monthly_budget.
  apply evolving_bind; [apply evolving_execute_query|]. intros [|r rows].
  - apply evolving_ret.
  - apply evolving_bind; [apply evolving_getitem|]. intros first.
    apply evolving_getitem.
Qed.

Lemma evolving_serve r : evolving (serve r).
Proof.
  destruct r; cbn [serve].
  - (* init_database *)
    intros w. unfold init_database, try_except.
    destruct (init_try_cases w) as [(w' & Q & ->)|(e & w' & Q & _ & ->)].
    + cbn [snd db set_db]. apply seed_fold_steps.
    + unfold except_sqlite3_Error.
      destruct (is_sqlite3_Error e); cbn; rewrite (quiet_db _ _ Q);
        apply steps_refl.
  - apply evolving_bind; [apply evolving_execute_update|].
    intros; apply evolving_ret.
  - apply evolving_bind; [apply evolving_execute_query|].
    intros; apply evolving_ret.
  - apply evolving_bind; [|intros; apply evolving_ret].
    unfold get_expense_summary.
    apply evolving_bind; [intros w; apply steps_refl|]. intros t.
    apply evolving_bind; [apply evolving_period_dates|]. intros dates.
    cbv zeta.
    apply evolving_bind; [apply evolving_execute_query|]. intros rows.
    apply evolving_bind; [apply evolving_getitem|]. intros first.
    apply evolving_bind; [apply evolving_getitem|]. intros cell.
    apply evolving_bind; [apply evolving_execute_query|]. intros rows'.
    apply evolving_ret.
  - apply evolving_bind; [|intros; apply evolving_ret].
    unfold get_categories.
    apply evolving_bind; [apply evolving_execute_query|].
    apply evolving_first_columns.
  - apply evolving_bind; [apply evolving_execute_update|].
    intros; apply evolving_ret.
  - apply evolving_bind; [|intros; apply evolving_ret].
    unfold set_monthly_budget.
    apply evolving_bind; [apply evolving_execute_query|].
    intros [|r rows]; apply evolving_execute_update.
  - apply evolving_bind; [apply evolving_get_monthly_budget|].
    intros; apply evolving_ret.
  - apply evolving_bind; [|intros; apply evolving_ret].
    unfold get_budget_status.
    apply evolving_bind; [apply evolving_get_monthly_budget|]. intros b.
    destruct (negb (truthy b)); [apply evolving_ret|].
    apply evolving_bind; [intros w; apply steps_refl|]. intros t.
    cbv zeta.
    apply evolving_bind; [apply evolving_execute_query|]. intros rows.
    apply evolving_bind; [apply evolving_getitem|]. intros first.
    apply evolving_bind; [apply evolving_getitem|]. intros cell.
    apply evolving_bind; [apply evolving_arith|]. intros rem.
    apply evolving_bind; [apply evolving_arith|]. intros pos.
    apply evolving_bind; [|intros; apply evolving_ret].
    destruct pos; [|apply evolving_ret].
    apply evolving_bind; [apply evolving_arith|]. intros q.
    apply evolving_arith.
Qed.

Lemma session_steps rs w : steps (db w) (db (session rs w)).
Proof.
  revert w. induction rs as [|r rs IH]; intros w; cbn [session].
  - apply steps_refl.
  - eapply steps_trans; [apply evolving_serve|apply IH].
Qed.


Lemma NoDup_snoc {A} (l : list A) x : ~ In x l -> NoDup l -> NoDup (l ++ [x]).
Proof.
  intros N D. apply (Permutation_NoDup (Permutation_cons_append l x)).
  now constructor.
Qed.

Lemma next_id_fresh {T} (id : T -> Z) seq l :
  ~ In (next_id id seq l) (map id l).
Proof.
  intros I. apply in_map_iff in I. destruct I as (x & E & I).
  apply (max_id_ge id) in I. unfold next_id in E. lia.
Qed.

Lemma store_wf_execute now s q rows s' :
  sqlite_execute now s q = inr (rows, s') -> store_wf s -> store_wf s'.
Proof.
  intros E (We & Wn & Wi & Wb).
  pose proof (budget_ok_execute _ _ _ _ _ E Wb) as Wb'.
  split; [|split; [|split]]; [| | |exact Wb'];
    destruct q; cbn in E;
    repeat match type of E with
    | context [if ?b then _ else _] => destruct b eqn:?
    end; try discriminate; injection E as <- <-; try assumption;
    unfold category_names, insert_category in *; cbn [expenses categories];
    rewrite ?map_app; cbn [map e_id c_name c_id].
  - apply NoDup_snoc; [apply next_id_fresh|exact We].
  - apply NoDup_snoc; [|exact Wn].
    intros I. apply has_name_In in I. congruence.
  - apply NoDup_snoc; [|exact Wn].
    intros I. apply has_name_In in I. congruence.
  - apply NoDup_snoc; [apply next_id_fresh|exact Wi].
  - apply NoDup_snoc; [apply next_id_fresh|exact Wi].
Qed.

Lemma extends_refl s : extends s s.
Proof.
  repeat split; try (exists []; now rewrite app_nil_r). lia.
Qed.

Lemma extends_trans s1 s2 s3 : extends s1 s2 -> extends s2 s3 -> extends s1 s3.
Proof.
  intros ((e1 & E1) & (c1 & C1) & B1) ((e2 & E2) & (c2 & C2) & B2).
  repeat split.
  - exists (e1 ++ e2)%list. now rewrite E2, E1, app_assoc.
  - exists (c1 ++ c2)%list. now rewrite C2, C1, app_assoc.
  - lia.
Qed.

Lemma extends_execute now s q rows s' :
  sqlite_execute now s q = inr (rows, s') -> extends s s'.
Proof.
  intros E. destruct q; cbn in E;
    repeat match type of E with
    | context [if ?b then _ else _] => destruct b eqn:?
    end; try discriminate; injection E as <- <-;
    try apply extends_refl;
    unfold extends, insert_category; cbn [expenses categories budget];
    repeat split;
    try (exists []; now rewrite app_nil_r);
    try (eexists; reflexivity);
    rewrite ?length_map, ?length_app; lia.
Qed.

Lemma steps_wf s s' : steps s s' -> store_wf s -> store_wf s'.
Proof.
  induction 1 as [|s1 s2 now q rows _ IH E]; intros W; [exact W|].
  eapply store_wf_execute; [exact E|]. now apply IH.
Qed.

Lemma steps_extends s s' : steps s s' -> extends s s'.
Proof.
  induction 1 as [|s1 s2 now q rows _ IH E]; [apply extends_refl|].
  eapply extends_trans; [exact IH|]. eapply extends_execute; exact E.
Qed.

(** X6.  Whatever calls a client makes on the three managers, in any
    order and whatever the backend does, the keys of the schema hold
    afterwards as they held before: expense ids are unique, category
    names are unique, category ids are unique, and the budget table holds
    at most its row 1. *)
Theorem session_keeps_keys rs w :
  store_wf (db w) -> store_wf (db (session rs w)).
Proof. intros W. eapply steps_wf; [apply session_steps|exact W]. Qed.

(** X7.  No call of the three managers removes or changes a recorded
    expense or a category: after any session the expenses and the
    categories of the start are a prefix of those of the end, and a
    budget row, once there, stays. *)
Theorem session_never_forgets rs w : extends (db w) (db (session rs w)).
Proof. apply steps_extends, session_steps. Qed.


Ltac run_py :=
  cbv beta delta [execute_query execute_update query_try update_try
    try_except bind sqlite3_connect cursor_execute conn_commit
    except_sqlite3_Error print ret raise].

Lemma execute_query_fails q w e fs :
  faults w = Some e :: fs -> is_sqlite3_Error e = true ->
  execute_query q w
  = (Ret [], write_line ("Database query error: " ++ str_exn e)
                        (set_faults fs w)).
Proof.
  intros F S. run_py. unfold fault_point. rewrite F, S. reflexivity.
Qed.

Lemma execute_query_after q w fs rows s' :
  faults w = None :: None :: fs ->
  sqlite_execute (utc_now w) (db w) q = inr (rows, s') ->
  execute_query q w = (Ret rows, set_faults fs w).
Proof.
  intros F E. run_py. unfold fault_point. rewrite F. cbn.
  rewrite E. reflexivity.
Qed.

(** ** Reads never write *)

Lemma reading_ret {A} (a : A) : reading (ret a).
Proof. intros w. reflexivity. Qed.

Lemma reading_raise {A} (e : exn) : reading (@raise R A e).
Proof. intros w. reflexivity. Qed.

Lemma reading_bind {A B} (m : py A) (k : A -> py B) :
  reading m -> (forall a, reading (k a)) -> reading (bind m k).
Proof.
  intros Hm Hk w. unfold bind. specialize (Hm w).
  destruct (m w) as [[a|e] w1]; cbn [snd] in *; [|exact Hm].
  now rewrite Hk.
Qed.

Lemma reading_execute_query q : reading (execute_query q).
Proof.
  intros w. pose proof (execute_query_outcome q w) as Q.
  now apply query_outcome_state in Q.
Qed.

Lemma reading_getitem {A} (l : list A) i : reading (getitem l i).
Proof.
  unfold getitem. destruct (nth_error l i);
    [apply reading_ret|apply reading_raise].
Qed.

Lemma reading_first_columns rows : reading (first_columns rows).
Proof.
  induction rows as [|r rows IH]; cbn [first_columns]; [apply reading_ret|].
  apply reading_bind; [apply reading_getitem|]. intros v.
  apply reading_bind; [exact IH|]. intros vs. apply reading_ret.
Qed.

Lemma reading_period_dates p t : reading (period_dates p t).
Proof.
  unfold period_dates.
  repeat match goal with
  | |- context [if ?b then _ else _] => destruct b
  | |- context [match ?o with Some _ => _ | None => _ end] => destruct o
  end; apply reading_ret || apply reading_raise.
Qed.

Lemma reading_arith (a b : value) :
  reading (py_sub a b) /\ reading (py_mul a b) /\
  reading (py_truediv a b) /\ reading (py_gt a b).
Proof.
  unfold py_sub, py_mul, py_truediv, py_gt.
  repeat split; destruct a, b; cbn [to_real];
    repeat match goal with
    | |- context [if ?c then _ else _] => destruct c
    end; apply reading_ret || apply reading_raise.
Qed.

Lemma reading_get_monthly_budget : reading get_monthly_budget.
Proof.
  unfold get_monthly_budget.
  apply reading_bind; [apply reading_execute_query|]. intros [|r rows].
  - apply reading_ret.
  - apply reading_bind; [apply reading_getitem|]. intros first.
    apply reading_getitem.
Qed.

(** X8.  The reading calls never change the database, whatever the
    backend does and whatever they return: [execute_query] (which never
    commits, so not even for a writing statement), [get_expenses],
    [get_expense_summary], [get_categories], [get_monthly_budget] and
    [get_budget_status]. *)
Theorem reads_never_write :
  (forall q, reading (execute_query q)) /\
  (forall sd ed cat mn mx kw, reading (get_expenses sd ed cat mn mx kw)) /\
  (forall p, reading (get_expense_summary p)) /\
  reading get_categories /\
  reading get_monthly_budget /\
  reading get_budget_status.
Proof.
  split; [exact reading_execute_query|].
  split; [intros; apply reading_execute_query|].
  split; [|split; [|split; [exact reading_get_monthly_budget|]]].
  - intros p. unfold get_expense_summary.
    apply reading_bind; [intros w; reflexivity|]. intros t.
    apply reading_bind; [apply reading_period_dates|]. intros dates.
    cbv zeta.
    apply reading_bind; [apply reading_execute_query|]. intros rows.
    apply reading_bind; [apply reading_getitem|]. intros first.
    apply reading_bind; [apply reading_getitem|]. intros cell.
    apply reading_bind; [apply reading_execute_query|]. intros rows'.
    apply reading_ret.
  - unfold get_categories.
    apply reading_bind; [apply reading_execute_query|].
    apply reading_first_columns.
  - unfold get_budget_status.
    apply reading_bind; [apply reading_get_monthly_budget|]. intros b.
    destruct (negb (truthy b)); [apply reading_ret|].
    apply reading_bind; [intros w; reflexivity|]. intros t.
    cbv zeta.
    apply reading_bind; [apply reading_execute_query|]. intros rows.
    apply reading_bind; [apply reading_getitem|]. intros first.
    apply reading_bind; [apply reading_getitem|]. intros cell.
    apply reading_bind; [apply reading_arith|]. intros rem.
    apply reading_bind; [apply reading_arith|]. intros pos.
    apply reading_bind; [|intros; apply reading_ret].
    destruct pos; [|apply reading_ret].
    apply reading_bind; [apply reading_arith|]. intros q.
    apply reading_arith.
Qed.

(** ** What the managers do not check *)




(** ** The registry *)

Lemma StronglySorted_map {A B} (f : A -> B) (P : B -> B -> Prop) l :
  StronglySorted (fun a b => P (f a) (f b)) l -> StronglySorted P (map f l).
Proof.
  induction 1 as [|x l S IH H]; cbn; constructor; [exact IH|].
  apply Forall_map. exact H.
Qed.

Lemma names_sorted (cs : list category_row) :
  StronglySorted (fun a b => text_le a b = true)
    (map c_name (sort_by (fun y x => text_lt (c_name y) (c_name x)) cs)).
Proof.
  apply StronglySorted_map.
  set (before := fun y x : category_row => text_lt (c_name y) (c_name x)).
  assert (E : forall a b, in_order before a b
                          <-> text_le (c_name a) (c_name b) = true).
  { intros a b. unfold in_order, before. rewrite text_lt_le.
    destruct (text_le (c_name a) (c_name b)); cbn; split; congruence. }
  assert (S : StronglySorted (in_order before) (sort_by before cs)).
  { apply sort_by_sorted.
    - intros x y. unfold before. rewrite !text_lt_le.
      destruct (text_le_total (c_name x) (c_name y)) as [H|H]; rewrite H;
        cbn; [|discriminate].
      destruct (text_le (c_name y) (c_name x)); [discriminate|reflexivity].
    - intros x y z. rewrite !E. apply text_le_trans. }
  revert S. generalize (sort_by before cs).
  induction 1 as [|x l' S IH H]; constructor; [exact IH|].
  eapply Forall_impl; [|exact H]. intros a. apply E.
Qed.

(** X11.  With a working backend [get_categories] returns every
    category name of the registry once, in ascending text order. *)
Theorem get_categories_sorted w :
  faults w = [] ->
  exists names,
    get_categories w = (Ret (map VStr names), w) /\
    Permutation names (category_names (db w)) /\
    StronglySorted (fun a b => text_le a b = true) names.
Proof.
  intros F. eexists. split; [apply get_categories_ok; exact F|]. split.
  - apply Permutation_map, sort_by_perm.
  - apply names_sorted.
Qed.

(** X12.  Adding a name that is not in the registry (any text, the empty
    string included) succeeds with a working backend: [True] is returned,
    one row with a fresh id and the name is appended, expenses and budget
    are untouched, and [get_categories] then lists the name with the old
    ones. *)
Theorem add_category_then_listed w name :
  faults w = [] ->
  ~ In name (category_names (db w)) ->
  exists id w' names,
    add_category name w = (Ret true, w') /\
    (forall c, In c (categories (db w)) -> c_id c < id) /\
    categories (db w')
    = (categories (db w) ++ [mkcategory id name (utc_now w)])%list /\
    expenses (db w') = expenses (db w) /\
    budget (db w') = budget (db w) /\
    get_categories w' = (Ret (map VStr names), w') /\
    Permutation names (name :: category_names (db w)).
Proof.
  intros F N.
  assert (H : has_name name (categories (db w)) = false).
  { destruct (has_name name (categories (db w))) eqn:H; [|reflexivity].
    apply has_name_In in H. contradiction. }
  exists (next_id c_id (categories_seq (db w)) (categories (db w))).
  eexists. eexists. split; [|split; [|split; [|split; [|split; [|split]]]]].
  - unfold add_category. eapply execute_update_ok; [exact F|].
    cbn. rewrite H. reflexivity.
  - intros c I. apply (max_id_ge c_id) in I. unfold next_id. lia.
  - reflexivity.
  - reflexivity.
  - reflexivity.
  - apply get_categories_ok. exact F.
  - cbn [db set_db insert_category categories].
    rewrite sort_by_perm. unfold category_names. rewrite map_app. cbn.
    symmetry. apply Permutation_cons_append.
Qed.

(** ** The budget when the backend fails *)

(** X13.  When the backend fails on the budget query, [get_monthly_budget]
    returns [None] and [get_budget_status] returns the no-budget answer,
    whatever budget is stored: a failed read cannot be told from a budget
    that was never set, except by the printed line. *)
Theorem failed_budget_read_looks_unset w e fs :
  faults w = Some e :: fs ->
  is_sqlite3_Error e = true ->
  let w' := write_line ("Database query error: " ++ str_exn e)
                       (set_faults fs w) in
  get_monthly_budget w = (Ret VNone, w') /\
  get_budget_status w = (Ret no_budget, w').
Proof.
  intros F S. cbv zeta.
  assert (G : get_monthly_budget w
              = (Ret VNone,
                 write_line ("Database query error: " ++ str_exn e)
                            (set_faults fs w))).
  { unfold get_monthly_budget, bind.
    rewrite (execute_query_fails _ w e fs F S). reflexivity. }
  split; [exact G|].
  unfold get_budget_status, bind. rewrite G. reflexivity.
Qed.

(** X14.  When the existence check of [set_monthly_budget] fails while
    a budget row exists, the call takes the [INSERT] branch, which the
    primary key refuses: [False] is returned, both errors are printed and
    the stored budget is unchanged. *)
Theorem failed_check_never_overwrites w e a b t :
  faults w = [Some e] ->
  is_sqlite3_Error e = true ->
  budget (db w) = [mkbudget 1 b t] ->
  is_nan a = false ->
  exists w',
    set_monthly_budget a w = (Ret false, w') /\
    db w' = db w /\
    stdout w'
    = (stdout w
       ++ [("Database query error: " ++ str_exn e)%string;
           "Database update error: UNIQUE constraint failed: budget.id"])%list.
Proof.
  intros F S Z N. eexists. unfold set_monthly_budget, bind.
  rewrite (execute_query_fails _ w e [] F S).
  rewrite execute_update_rejected
    with (e := Sqlite3Error IntegrityError
                 "UNIQUE constraint failed: budget.id").
  - split; [reflexivity|]. split; [reflexivity|].
    cbn. now rewrite <- app_assoc.
  - reflexivity.
  - cbn. rewrite N, Z. reflexivity.
Qed.


(** ** The breakdown, category by category *)

Lemma group_totals_snoc es e :
  group_totals (es ++ [e])
  = add_to_group (e_category e) (e_amount e) (group_totals es).
Proof. unfold group_totals. now rewrite fold_left_app. Qed.

Lemma add_to_group_key c a g k :
  In k (map fst (add_to_group c a g)) <-> k = c \/ In k (map fst g).
Proof.
  induction g as [|[c' t] g IH]; cbn [add_to_group map fst In].
  - intuition congruence.
  - destruct (String.eqb_spec c' c) as [->|N]; cbn [map fst In].
    + intuition congruence.
    + rewrite IH. intuition congruence.
Qed.

Lemma add_to_group_NoDup c a g :
  NoDup (map fst g) -> NoDup (map fst (add_to_group c a g)).
Proof.
  induction g as [|[c' t] g IH]; cbn [add_to_group map fst]; intros N.
  - constructor; [intros []|constructor].
  - inversion N as [|? ? N1 N2]; subst.
    destruct (String.eqb_spec c' c) as [->|D]; cbn [map fst].
    + now constructor.
    + constructor; [|now apply IH].
      rewrite add_to_group_key. intros [->|I]; [now apply D|now apply N1].
Qed.

Lemma add_to_group_In c a g k t :
  NoDup (map fst g) ->
  In (k, t) (add_to_group c a g) ->
  (k <> c /\ In (k, t) g) \/
  (k = c /\ ((exists t0, In (c, t0) g /\ t = radd t0 a) \/
             (~ In c (map fst g) /\ t = radd r0 a))).
Proof.
  induction g as [|[c' t'] g IH]; cbn [add_to_group map fst In]; intros N.
  - intros [[= <- <-]|[]]. right. split; [reflexivity|]. right. tauto.
  - inversion N as [|? ? N1 N2]; subst.
    destruct (String.eqb_spec c' c) as [->|D]; cbn [In].
    + intros [[= <- <-]|I].
      * right. split; [reflexivity|]. left. exists t'. split; [now left|easy].
      * left. split; [|now right]. intros ->. apply N1.
        change c with (fst (c, t)). now apply in_map.
    + intros [[= <- <-]|I].
      * left. split; [exact D|now left].
      * destruct (IH N2 I) as [[K I']|[-> [(t0 & I0 & ->)|[K ->]]]].
        -- left. split; [exact K|now right].
        -- right. split; [reflexivity|]. left. exists t0.
           split; [now right|reflexivity].
        -- right. split; [reflexivity|]. right. split; [|reflexivity].
           intros [E|I']; [now apply D|now apply K].
Qed.

Lemma filter_none {A} (f : A -> bool) l :
  (forall x, In x l -> f x = false) -> filter f l = [].
Proof.
  induction l as [|y l IH]; cbn; intros H; [reflexivity|].
  rewrite (H y) by now left. apply IH. intros; apply H; now right.
Qed.

Lemma rsum_snoc l a : rsum (l ++ [a]) = radd (rsum l) a.
Proof. unfold rsum. now rewrite fold_left_app. Qed.

Lemma group_totals_spec es :
  NoDup (map fst (group_totals es)) /\
  (forall k, In k (map fst (group_totals es))
             <-> exists e, In e es /\ e_category e = k) /\
  (forall k t, In (k, t) (group_totals es) ->
               t = rsum (map e_amount (filter (in_category k) es))).
Proof.
  induction es as [|e es (N & K & T)] using rev_ind.
  - split; [constructor|]. split.
    + intros k. cbn. split; [intros []|intros (e & [] & _)].
    + intros k t [].
  - rewrite group_totals_snoc. split; [now apply add_to_group_NoDup|]. split.
    + intros k. rewrite add_to_group_key, K. split.
      * intros [->|(x & I & E)].
        -- exists e. split; [apply in_or_app; right; now left|reflexivity].
        -- exists x. split; [apply in_or_app; now left|exact E].
      * intros (x & I & E). apply in_app_or in I.
        destruct I as [I|[<-|[]]]; [right; eauto|now left].
    + intros k t I. rewrite filter_app, map_app. cbn [filter].
      unfold in_category at 2.
      destruct (add_to_group_In _ _ _ _ _ N I)
        as [[D I']|[-> [(t0 & I0 & ->)|[D ->]]]].
      * destruct (String.eqb_spec (e_category e) k) as [E|_];
          [now symmetry in E|].
        cbn [map]. rewrite app_nil_r. now apply T.
      * rewrite String.eqb_refl. cbn [map]. rewrite rsum_snoc.
        f_equal. now apply T.
      * rewrite String.eqb_refl. cbn [map]. rewrite rsum_snoc. f_equal.
        rewrite filter_none; [reflexivity|].
        intros x I'. unfold in_category.
        destruct (String.eqb_spec (e_category x) (e_category e)) as [E|_];
          [|reflexivity].
        exfalso. apply D. apply K. eauto.
Qed.

Lemma category_totals_perm es :
  Permutation (category_totals es) (group_totals es).
Proof. unfold category_totals. now rewrite !sort_by_perm. Qed.

Lemma window_of_text win :
  window_of (option_map fst (window_text win))
            (option_map snd (window_text win))
  = window_text win.
Proof. destruct win as [[lo hi]|]; reflexivity. Qed.


(** ** The summary when the second query fails *)


(** ** The two monthly sums *)

(** X17.  The spend [get_budget_status] reports is the total
    [get_expense_summary("monthly")] reports: with a working backend and
    a stored budget that is not 0, both calls return and the two numbers
    are the same. *)
Theorem status_spent_is_monthly_total (RO : RealOrder R) w b t :
  faults w = [] ->
  budget (db w) = [mkbudget 1 b t] ->
  reqb b r0 = false ->
  exists st s,
    get_budget_status w = (Ret st, w) /\
    get_expense_summary "monthly" w = (Ret s, w) /\
    st_budget st = VFloat b /\
    st_spent st = total_amount s.
Proof.
  intros F Z N.
  exists (mkstatus (VFloat b)
            (VFloat (total_of (selected (month_window (today w)) (db w))))
            (VFloat (rsub b (total_of (selected (month_window (today w))
                                         (db w)))))
            (if rltb r0 b
             then VFloat (rmul (rdiv (total_of (selected
                                  (month_window (today w)) (db w))) b) r100)
             else VInt 0)).
  eexists. split; [|split; [|split]].
  - unfold get_budget_status, bind.
    rewrite (get_monthly_budget_ok w b t F Z). cbn [truthy].
    unfold nonzero. rewrite N. cbn [negb].
    unfold datetime_now_date. fold (month_window (today w)).
    rewrite (sum_query_ok _ w F). cbn [getitem nth_error ret].
    rewrite sum_cell. cbn [py_sub to_real ret py_gt].
    fold (@r0 R). destruct (rltb r0 b) eqn:P.
    + unfold py_truediv. cbn [to_real]. rewrite N.
      cbn [ret py_mul to_real]. reflexivity.
    + reflexivity.
  - unfold get_expense_summary, bind, datetime_now_date.
    cbn [period_dates String.eqb Ascii.eqb Bool.eqb ret fst snd].
    change (window_of _ _) with (month_window (today w)).
    rewrite (sum_query_ok _ w F). cbn [getitem nth_error ret].
    rewrite sum_cell.
    erewrite execute_query_ok by (try eassumption; reflexivity).
    reflexivity.
  - reflexivity.
  - reflexivity.
Qed.

(** ** Windows inside windows *)

Lemma between_widen lo lo' hi e :
  text_le lo' lo = true -> between lo hi e = true -> between lo' hi e = true.
Proof.
  unfold between. intros L B. apply andb_true_iff in B. destruct B as [B1 B2].
  rewrite B2, andb_true_r. eapply text_le_trans; eassumption.
Qed.

Lemma date_le_ordinal a b :
  valid a -> valid b -> toordinal a <= toordinal b -> date_le a b.
Proof.
  intros Va Vb L. unfold date_le. rewrite <- (toordinal_compare a b Va Vb).
  now apply Z.compare_le_iff.
Qed.

Lemma replace_day1_le d : valid d -> date_le (replace_day1 d) d.
Proof.
  intros (Y & M & D). unfold date_le, compare_date, replace_day1.
  cbn [year month day]. rewrite !Z.compare_refl.
  apply Z.compare_le_iff. lia.
Qed.

Lemma replace_month1_le d :
  valid d -> date_le (replace_month1_day1 d) (replace_day1 d).
Proof.
  intros (Y & M & D). unfold date_le, compare_date, replace_day1,
    replace_month1_day1.
  cbn [year month day]. rewrite !Z.compare_refl.
  destruct (Z.compare_spec 1 (month d)); try discriminate. lia.
Qed.

(** X18.  The windows of the periods nest: on any day the expenses the
    daily window selects are among those of the weekly, the monthly and
    the yearly window, and those of the monthly window are among those of
    the yearly window. *)
Theorem narrower_period_selects_less w p q :
  valid (today w) ->
  narrower p q ->
  exists dp dq,
    period_dates p (today w) w = (Ret dp, w) /\
    period_dates q (today w) w = (Ret dq, w) /\
    forall e,
      In e (selected (window_of (fst dp) (snd dp)) (db w)) ->
      In e (selected (window_of (fst dq) (snd dq)) (db w)).
Proof.
  intros V Nw.
  pose proof (replace_day1_valid _ V) as V1.
  pose proof (replace_month1_day1_valid _ V) as V2.
  assert (W : forall lo lo' hi,
             text_le lo' lo = true ->
             forall e, In e (selected (Some (lo, hi)) (db w)) ->
                       In e (selected (Some (lo', hi)) (db w))).
  { intros lo lo' hi L e. unfold selected. rewrite !filter_In.
    intros [I B]. split; [exact I|]. cbn [in_window] in *.
    eapply between_widen; eassumption. }
  destruct Nw as [ [ -> [ -> | [ -> | -> ] ] ] | [ -> -> ] ].
  - destruct (week_start _ V) as (m & S & Vm & _ & O).
    eexists. eexists. split; [reflexivity|]. split.
    + unfold period_dates. cbn [String.eqb Ascii.eqb Bool.eqb].
      rewrite S. reflexivity.
    + cbn [fst snd]. apply W. apply text_le_strftime; try assumption.
      apply date_le_ordinal; [assumption..|lia].
  - eexists. eexists. split; [reflexivity|]. split; [reflexivity|].
    cbn [fst snd]. apply W. apply text_le_strftime; try assumption.
    now apply replace_day1_le.
  - eexists. eexists. split; [reflexivity|]. split; [reflexivity|].
    cbn [fst snd]. apply W. apply text_le_strftime; try assumption.
    unfold date_le. destruct V as (Y & M & D).
    unfold compare_date, replace_month1_day1. cbn [year month day].
    rewrite Z.compare_refl.
    destruct (Z.compare_spec 1 (month (today w))) as [E|L|L];
      try discriminate; [|lia].
    apply Z.compare_le_iff. lia.
  - eexists. eexists. split; [reflexivity|]. split; [reflexivity|].
    cbn [fst snd]. apply W. apply text_le_strftime; try assumption.
    now apply replace_month1_le.
Qed.


End Ledger_facts.

(* ================================================================== *)
(** * The ledger facts on concrete ledgers                             *)
(* ================================================================== *)

Section Ledger_on_units.
#[local] Existing Instance exact_units.






Lemma session_keeps_keys_witness :
  store_wf (db cents_world) /\
  store_wf (db (session demo_session cents_world)).
Proof.
  assert (W : store_wf (db cents_world)).
  { split; [|split; [|split; [|split]]].
    - vm_compute. repeat constructor; cbn; intuition discriminate.
    - vm_compute. repeat constructor; cbn; intuition discriminate.
    - vm_compute. repeat constructor; cbn; intuition discriminate.
    - vm_compute. lia.
    - intros b []. }
  split; [exact W|].
  apply (@session_keeps_keys exact_units demo_session cents_world W).
Defined.



Lemma get_categories_sorted_witness :
  faults cents_world = [] /\
  exists names,
    get_categories cents_world = (Ret (map VStr names), cents_world) /\
    Permutation names (category_names (db cents_world)) /\
    StronglySorted (fun a b => text_le a b = true) names.
Proof.
  split; [reflexivity|].
  apply (@get_categories_sorted exact_units cents_world eq_refl).
Defined.

(** The empty name is a category like any other. *)
Lemma add_category_then_listed_witness :
  let w := cents_world in
  faults w = [] /\
  ~ In "" (category_names (db w)) /\
  exists id w' names,
    add_category "" w = (Ret true, w') /\
    (forall c, In c (categories (db w)) -> c_id c < id) /\
    categories (db w')
    = (categories (db w) ++ [mkcategory id "" (utc_now w)])%list /\
    expenses (db w') = expenses (db w) /\
    budget (db w') = budget (db w) /\
    get_categories w' = (Ret (map VStr names), w') /\
    Permutation names ("" :: category_names (db w)).
Proof.
  cbv zeta.
  assert (N : ~ In "" (category_names (db cents_world)))
    by (vm_compute; intuition discriminate).
  split; [reflexivity|]. split; [exact N|].
  apply (@add_category_then_listed exact_units cents_world "" eq_refl N).
Defined.

(** A budget of 100 is stored, and the file cannot be opened. *)
Lemma failed_budget_read_looks_unset_witness :
  let w := set_faults [Some unable_to_open] cents_budget_world in
  let w' := write_line "Database query error: unable to open database file"
                       cents_budget_world in
  faults w = [Some unable_to_open] /\
  is_sqlite3_Error unable_to_open = true /\
  budget (db w) = [mkbudget 1 100 demo_now] /\
  get_monthly_budget w = (Ret VNone, w') /\
  get_budget_status w = (Ret no_budget, w').
Proof.
  cbv zeta. split; [reflexivity|]. split; [reflexivity|].
  split; [reflexivity|].
  apply (@failed_budget_read_looks_unset exact_units
           (set_faults [Some unable_to_open] cents_budget_world)
           unable_to_open [] eq_refl eq_refl).
Defined.

Lemma failed_check_never_overwrites_witness :
  let w := set_faults [Some unable_to_open] cents_budget_world in
  faults w = [Some unable_to_open] /\
  is_sqlite3_Error unable_to_open = true /\
  budget (db w) = [mkbudget 1 100 demo_now] /\
  is_nan 250 = false /\
  exists w',
    set_monthly_budget 250 w = (Ret false, w') /\
    db w' = db w /\
    stdout w'
    = (stdout w
       ++ [("Database query error: " ++ str_exn unable_to_open)%string;
           "Database update error: UNIQUE constraint failed: budget.id"])%list.
Proof.
  cbv zeta. split; [reflexivity|]. split; [reflexivity|].
  split; [reflexivity|]. split; [reflexivity|].
  apply (@failed_check_never_overwrites exact_units
           (set_faults [Some unable_to_open] cents_budget_world)
           unable_to_open 250 100 demo_now eq_refl eq_refl eq_refl eq_refl).
Defined.



Lemma status_spent_is_monthly_total_witness :
  let w := cents_budget_world in
  faults w = [] /\
  budget (db w) = [mkbudget 1 100 demo_now] /\
  reqb 100 r0 = false /\
  exists st s,
    get_budget_status w = (Ret st, w) /\
    get_expense_summary "monthly" w = (Ret s, w) /\
    st_budget st = VFloat 100 /\
    st_spent st = total_amount s.
Proof.
  cbv zeta. split; [reflexivity|]. split; [reflexivity|].
  split; [reflexivity|].
  apply (@status_spent_is_monthly_total exact_units exact_units_order
           cents_budget_world 100 demo_now eq_refl eq_refl eq_refl).
Defined.

Lemma narrower_period_selects_less_witness :
  let w := cents_world in
  valid (today w) /\ narrower "daily" "weekly" /\
  exists dp dq,
    period_dates "daily" (today w) w = (Ret dp, w) /\
    period_dates "weekly" (today w) w = (Ret dq, w) /\
    forall e,
      In e (selected (window_of (fst dp) (snd dp)) (db w)) ->
      In e (selected (window_of (fst dq) (snd dq)) (db w)).
Proof.
  cbv zeta.
  assert (V : valid (today cents_world))
    by (repeat split; vm_compute; discriminate).
  assert (N : narrower "daily" "weekly") by (left; auto).
  split; [exact V|]. split; [exact N|].
  apply (@narrower_period_selects_less exact_units cents_world
           "daily" "weekly" V N).
Defined.

End Ledger_on_units.
